(** * Endpoint validator: a shallow embedding of [endpoint_validator.py]

  The program scans source files for HTTP route declarations (found by
  per-language regular expressions) and checks every route against a list of
  allowed parent paths.

  Text is modelled by [string]: a character is an [ascii], read as a code
  point below 256.  Python's [str] methods and the part of [re] the program
  uses are embedded as functions on these strings. *)

From Stdlib Require Import Strings.String Strings.Ascii Lists.List Bool.Bool.
From Stdlib Require Import Arith.PeanoNat micromega.Lia Numbers.DecimalString.
Import ListNotations.

Open Scope char_scope.
Open Scope list_scope.
Open Scope string_scope.

Set Implicit Arguments.
Set Warnings "-register-all".

(** ** Python [str] methods *)

Module Str.

(** [c in chars] for a one-character [c]. *)
Fixpoint mem (c : ascii) (chars : string) : bool :=
  match chars with
  | EmptyString => false
  | String d chars' => (c =? d)%char || mem c chars'
  end.

(** [s.rstrip] with the characters to remove given by a predicate. *)
Fixpoint rstrip_by (p : ascii -> bool) (s : string) : string :=
  match s with
  | EmptyString => EmptyString
  | String c s' =>
      match rstrip_by p s' with
      | EmptyString => if p c then EmptyString else String c EmptyString
      | r => String c r
      end
  end.

Fixpoint lstrip_by (p : ascii -> bool) (s : string) : string :=
  match s with
  | EmptyString => EmptyString
  | String c s' => if p c then lstrip_by p s' else s
  end.

(** [s.rstrip(chars)]: every trailing character that occurs in [chars] goes. *)
Definition rstrip (chars s : string) : string :=
  rstrip_by (fun c => mem c chars) s.

(** [str.isspace] on code points below 256: TAB..CR, FS..US, space, NEL, NBSP. *)
Definition isspace (c : ascii) : bool :=
  let n := nat_of_ascii c in
  (((9 <=? n) && (n <=? 13)) || ((28 <=? n) && (n <=? 32))
   || (n =? 133) || (n =? 160))%nat.

(** [s.strip()] *)
Definition strip (s : string) : string :=
  lstrip_by isspace (rstrip_by isspace s).

(** [s.startswith(p)] *)
Definition startswith (s p : string) : bool := prefix p s.

(** [s.endswith(suf)] *)
Fixpoint endswith (s suf : string) : bool :=
  (s =? suf) ||
  match s with
  | EmptyString => false
  | String _ s' => endswith s' suf
  end.

(** [s.split(sep)] for a one-character separator: the pieces between the
    occurrences of [sep], never an empty list. *)
Fixpoint split (sep : ascii) (s : string) : list string :=
  match s with
  | EmptyString => [EmptyString]
  | String c s' =>
      if (c =? sep)%char then EmptyString :: split sep s'
      else match split sep s' with
           | piece :: pieces => String c piece :: pieces
           | [] => [String c EmptyString]
           end
  end.

(** [pieces[0]] of a split result (which always has a first piece). *)
Definition first (pieces : list string) : string := hd EmptyString pieces.

(** [c * n] for a one-character string. *)
Fixpoint repeat (c : ascii) (n : nat) : string :=
  match n with
  | O => EmptyString
  | S n' => String c (repeat c n')
  end.

(** [str(n)] for a natural number. *)
Definition of_nat (n : nat) : string := NilEmpty.string_of_uint (Nat.to_uint n).

End Str.

(** ** Configuration *)

Definition ALLOWED_PARENT_PATHS : list string :=
  ["/api/v1"; "/api/v2"; "/api/v3"].

Definition FILE_EXTENSIONS : list string :=
  [".go"; ".js"; ".ts"; ".py"; ".java"; ".rb"].

(** ** Path validator *)

Section Validator.

(** The global allow-list the function reads. *)
Variable allowed_parent_paths : list string.

(** The [for parent_path in ...] loop, with its early [return True]. *)
Fixpoint validate_loop (endpoint : string) (paths : list string) : bool :=
  match paths with
  | [] => false
  | parent_path :: paths' =>
      let parent_path := Str.rstrip "/" parent_path in
      if Str.startswith endpoint (parent_path ++ "/") || (endpoint =? parent_path)
      then true
      else validate_loop endpoint paths'
  end.

Definition validate_endpoint (endpoint : string) : bool :=
  let endpoint := Str.rstrip "/" endpoint in
  validate_loop endpoint allowed_parent_paths.

End Validator.

(** ** What the specification says about stripping *)

(** [s] ends with a slash. *)
Fixpoint ends_with_slash (s : string) : bool :=
  match s with
  | EmptyString => false
  | String c EmptyString => (c =? "/")%char
  | String _ s' => ends_with_slash s'
  end.

(** [s'] is [s] with its trailing slashes stripped. *)
Definition Stripped (s s' : string) : Prop :=
  (exists k, s = s' ++ Str.repeat "/" k) /\ ends_with_slash s' = false.

(** [s] starts with [p]. *)
Definition StartsWith (s p : string) : Prop := exists t, s = p ++ t.

(** Remove one trailing slash, when there is one. *)
Fixpoint strip_one_slash (s : string) : string :=
  match s with
  | EmptyString => EmptyString
  | String c EmptyString => if (c =? "/")%char then EmptyString else s
  | String c s' => String c (strip_one_slash s')
  end.

(** Remove one trailing slash over and over, until none is left. *)
Definition strip_all_slashes (s : string) : string :=
  Nat.iter (String.length s) strip_one_slash s.

(** The validator as the specification words it, for a given way of
    stripping: some entry equals the endpoint, or is followed by a slash in
    it, both stripped. *)
Definition validate_spec (strip : string -> string)
    (allowed : list string) (endpoint : string) : bool :=
  existsb (fun p =>
             (strip endpoint =? strip p)
             || Str.startswith (strip endpoint) (strip p ++ "/"))
          allowed.

(** ** The part of Python's [re] the program uses

    A pattern is given by its syntax tree.  Matching is the backtracking
    search of [re]: [run] lists every way a pattern can match at the start of
    the text, most preferred first, so that the match [re] reports is the
    head of the list.  The flag [re.IGNORECASE] is built in (letters compare
    without case); [re.MULTILINE] changes [^] and [$] only, which no pattern
    of the program contains. *)

Module Re.

Inductive regex : Type :=
| Eps                              (* the empty pattern *)
| Chr (c : ascii)                  (* a literal character *)
| Space                            (* \s *)
| AnyChar                          (* .  (no newline) *)
| OneOf (set : string)             (* [...] *)
| NoneOf (set : string)            (* [^...] *)
| Seq (r1 r2 : regex)              (* r1r2 *)
| Alt (r1 r2 : regex)              (* r1|r2 *)
| Star (r : regex)                 (* r*, greedy *)
| Group (i : nat) (r : regex).     (* (r), the capture with index i *)

(** [r+] *)
Definition Plus (r : regex) : regex := Seq r (Star r).

(** A literal word. *)
Fixpoint lit (w : string) : regex :=
  match w with
  | EmptyString => Eps
  | String c w' => Seq (Chr c) (lit w')
  end.

(** [w|w1|...|wn] over literal words. *)
Fixpoint alts (w : string) (ws : list string) : regex :=
  match ws with
  | [] => lit w
  | w' :: ws' => Alt (lit w) (alts w' ws')
  end.

(** [r1r2...rn] *)
Fixpoint seqs (rs : list regex) : regex :=
  match rs with
  | [] => Eps
  | [r] => r
  | r :: rs' => Seq r (seqs rs')
  end.

Definition newline : ascii := "010".

(** Lower case of a code point below 256, as far as ASCII letters go: these
    are the only letters of the program's patterns. *)
Definition lower (c : ascii) : ascii :=
  let n := nat_of_ascii c in
  if ((65 <=? n) && (n <=? 90))%nat then ascii_of_nat (n + 32) else c.

Definition ci_eqb (a c : ascii) : bool := (lower a =? lower c)%char.

Fixpoint ci_mem (a : ascii) (set : string) : bool :=
  match set with
  | EmptyString => false
  | String c set' => ci_eqb a c || ci_mem a set'
  end.

Definition captures : Type := list (nat * string).

(** One way to match: the text consumed, the text left, the captures. *)
Record result : Type := mk { text : string; rest : string; caps : captures }.

Definition one_char (ok : ascii -> bool) (s : string) (cs : captures)
    : list result :=
  match s with
  | String a s' => if ok a then [mk (String a EmptyString) s' cs] else []
  | EmptyString => []
  end.

Definition after (t : string) (m : result) : result :=
  mk (t ++ text m) (rest m) (caps m).

(** The iterations of a starred pattern, whose one iteration is [step]:
    one more iteration is preferred to stopping.  An iteration consumes at
    least one character, so there are at most [String.length s] of them and
    the [fuel] given by [run] never runs out. *)
Fixpoint star_loop (step : string -> captures -> list result)
    (fuel : nat) (s : string) (cs : captures) : list result :=
  match fuel with
  | O => [mk EmptyString s cs]
  | S fuel' =>
      (flat_map
         (fun m1 =>
            if (text m1 =? "")%string then []
            else map (after (text m1))
                     (star_loop step fuel' (rest m1) (caps m1)))
         (step s cs)
       ++ [mk EmptyString s cs])%list
  end.

Fixpoint run (r : regex) (s : string) (cs : captures) : list result :=
  match r with
  | Eps => [mk EmptyString s cs]
  | Chr c => one_char (fun a => ci_eqb a c) s cs
  | Space => one_char Str.isspace s cs
  | AnyChar => one_char (fun a => negb (a =? newline)%char) s cs
  | OneOf set => one_char (fun a => ci_mem a set) s cs
  | NoneOf set => one_char (fun a => negb (ci_mem a set)) s cs
  | Seq r1 r2 =>
      flat_map (fun m1 => map (after (text m1)) (run r2 (rest m1) (caps m1)))
               (run r1 s cs)
  | Alt r1 r2 => (run r1 s cs ++ run r2 s cs)%list
  | Star r1 => star_loop (run r1) (S (String.length s)) s cs
  | Group i r1 =>
      map (fun m => mk (text m) (rest m) ((i, text m) :: caps m)) (run r1 s cs)
  end.

(** The match at the start of [s], if any: the preferred one. *)
Definition match_here (r : regex) (s : string) : option result :=
  hd_error (run r s []).

Fixpoint ngroups (r : regex) : nat :=
  match r with
  | Seq r1 r2 | Alt r1 r2 => ngroups r1 + ngroups r2
  | Star r1 => ngroups r1
  | Group _ r1 => S (ngroups r1)
  | _ => 0
  end.

Fixpoint assoc (i : nat) (cs : captures) : option string :=
  match cs with
  | [] => None
  | (j, t) :: cs' => if (i =? j)%nat then Some t else assoc i cs'
  end.

(** The text of capture [i]; the empty string when it took no part. *)
Definition group (m : result) (i : nat) : string :=
  match assoc i (caps m) with
  | Some t => t
  | None => EmptyString
  end.

(** An element of the list [re.findall] returns: a string when the pattern
    has at most one capture, a tuple of the captures when it has more. *)
Inductive found : Type :=
| MStr (s : string)
| MTuple (g0 g1 : string) (more : list string).

Definition item (r : regex) (m : result) : found :=
  match ngroups r with
  | 0 => MStr (text m)
  | 1 => MStr (group m 0)
  | S (S n) => MTuple (group m 0) (group m 1) (map (group m) (seq 2 n))
  end.

(** Left to right; after a match the search resumes where it ended, so
    [skip] characters are passed over; after a failure (or an empty match)
    one character on. *)
Fixpoint scan (r : regex) (skip : nat) (s : string) : list found :=
  match skip, s with
  | S skip', String _ s' => scan r skip' s'
  | S _, EmptyString => []
  | O, String _ s' =>
      match match_here r s with
      | Some m => item r m :: scan r (pred (String.length (text m))) s'
      | None => scan r 0 s'
      end
  | O, EmptyString =>
      match match_here r s with
      | Some m => [item r m]
      | None => []
      end
  end.

(** [re.findall(pattern, content, re.MULTILINE | re.IGNORECASE)] *)
Definition findall (pattern : regex) (content : string) : list found :=
  scan pattern 0 content.

End Re.

(** ** The pattern table *)

Import Re.

Definition dquote : ascii := "034".

(** The quotes that open a Go string, and those of the other languages. *)
Definition go_quotes : string := String dquote "`".
Definition quotes : string := String "'" (String dquote "`").

(** [\s*\(\s*[q]([^q]+)[q]]: an opening parenthesis and a quoted path, which
    is capture [i]. *)
Definition call_with_path (q : string) (i : nat) : regex :=
  seqs [Star Space; Chr "("; Star Space;
        OneOf q; Group i (Plus (NoneOf q)); OneOf q].

Definition GO_VERBS : regex := alts "GET" ["POST"; "PUT"; "DELETE"; "PATCH"].
Definition verbs : regex := alts "get" ["post"; "put"; "delete"; "patch"].

(** The rules, each below the pattern of the source it renders (where the
    double quote is written [\x22]).  Capture [i] here is [match[i]] of the
    tuple [re.findall] returns. *)

Definition ENDPOINT_PATTERNS : list (string * list regex) :=
  [ ("go",
      [ (* Gorilla Mux:  \.HandleFunc\s*\(\s*[\x22`]([^\x22`]+)[\x22`] *)
        Seq (lit ".HandleFunc") (call_with_path go_quotes 0);
        (* Gin:  \.(GET|POST|PUT|DELETE|PATCH)\s*\(\s*[\x22`]([^\x22`]+)[\x22`] *)
        seqs [Chr "."; Group 0 GO_VERBS; call_with_path go_quotes 1];
        (* Echo:  e\.(GET|POST|PUT|DELETE|PATCH)\s*\(\s*[\x22`]([^\x22`]+)[\x22`] *)
        seqs [lit "e."; Group 0 GO_VERBS; call_with_path go_quotes 1];
        (* Standard http:  http\.HandleFunc\s*\(\s*[\x22`]([^\x22`]+)[\x22`] *)
        Seq (lit "http.HandleFunc") (call_with_path go_quotes 0) ]);
    ("js",
      [ (* Express:  (?:app|router)\.(get|post|put|delete|patch)\s*\(\s*['\x22`]([^'\x22`]+)['\x22`] *)
        seqs [alts "app" ["router"]; Chr "."; Group 0 verbs;
              call_with_path quotes 1];
        (* Fastify:  fastify\.(get|post|put|delete|patch)\s*\(\s*['\x22`]([^'\x22`]+)['\x22`] *)
        seqs [lit "fastify."; Group 0 verbs; call_with_path quotes 1] ]);
    ("ts",
      [ (* (?:app|router)\.(get|post|put|delete|patch)\s*\(\s*['\x22`]([^'\x22`]+)['\x22`] *)
        seqs [alts "app" ["router"]; Chr "."; Group 0 verbs;
              call_with_path quotes 1];
        (* NestJS:  @(Get|Post|Put|Delete|Patch)\s*\(\s*['\x22`]([^'\x22`]+)['\x22`] *)
        seqs [Chr "@"; Group 0 (alts "Get" ["Post"; "Put"; "Delete"; "Patch"]);
              call_with_path quotes 1] ]);
    ("py",
      [ (* Flask:  @app\.route\s*\(\s*['\x22`]([^'\x22`]+)['\x22`] *)
        Seq (lit "@app.route") (call_with_path quotes 0);
        (* FastAPI:  @(?:app|router)\.(get|post|put|delete|patch)\s*\(\s*['\x22`]([^'\x22`]+)['\x22`] *)
        seqs [Chr "@"; alts "app" ["router"]; Chr "."; Group 0 verbs;
              call_with_path quotes 1];
        (* Django:  path\s*\(\s*['\x22`]([^'\x22`]+)['\x22`] *)
        Seq (lit "path") (call_with_path quotes 0) ]);
    ("java",
      [ (* Spring:  @(?:Get|Post|Put|Delete|Patch)Mapping\s*\(\s*['\x22`]([^'\x22`]+)['\x22`] *)
        seqs [Chr "@"; alts "Get" ["Post"; "Put"; "Delete"; "Patch"];
              lit "Mapping"; call_with_path quotes 0];
        (* @RequestMapping\s*\(.*path\s*=\s*['\x22`]([^'\x22`]+)['\x22`] *)
        seqs [lit "@RequestMapping"; Star Space; Chr "("; Star AnyChar;
              lit "path"; Star Space; Chr "="; Star Space;
              OneOf quotes; Group 0 (Plus (NoneOf quotes)); OneOf quotes] ]);
    ("rb",
      [ (* Rails:  (?:get|post|put|delete|patch)\s+['\x22`]([^'\x22`]+)['\x22`] *)
        seqs [verbs; Plus Space;
              OneOf quotes; Group 0 (Plus (NoneOf quotes)); OneOf quotes] ]) ].

(** [table.get(key, [])] *)
Fixpoint get_patterns (table : list (string * list regex)) (key : string)
    : list regex :=
  match table with
  | [] => []
  | (k, v) :: table' => if (key =? k)%string then v else get_patterns table' key
  end.

(** ** Endpoint extractor *)

(** [match[1] if len(match) > 1 and match[1].startswith('/') else match[0]]
    for a tuple, the match itself for a string. *)
Definition candidate (m : found) : string :=
  match m with
  | MTuple g0 g1 _ => if Str.startswith g1 "/" then g1 else g0
  | MStr s => s
  end.

(** [endpoint.split('?')[0].split('#')[0]] *)
Definition clean (endpoint : string) : string :=
  Str.first (Str.split "#" (Str.first (Str.split "?" endpoint))).

(** The body of the loop over the matches: what one match appends. *)
Definition endpoints_of_match (m : found) : list string :=
  let endpoint := candidate m in
  if negb (endpoint =? "") && Str.startswith endpoint "/"
  then [clean endpoint]
  else [].

(** The two loops, over the patterns and over the matches of each. *)
Definition extract_endpoints (patterns : list regex) (content : string)
    : list string :=
  flat_map (fun pattern => flat_map endpoints_of_match (findall pattern content))
           patterns.

(** [Path(filepath).name] for a path that names a file: what follows the
    last slash. *)
Definition name (filepath : string) : string :=
  last (Str.split "/" filepath) EmptyString.

(** The text before and after the last [sep] of [s]. *)
Fixpoint rpartition (sep : ascii) (s : string) : option (string * string) :=
  match s with
  | EmptyString => None
  | String c s' =>
      match rpartition sep s' with
      | Some (before, behind) => Some (String c before, behind)
      | None => if (c =? sep)%char then Some (EmptyString, s') else None
      end
  end.

(** [Path(filepath).suffix[1:]]: the suffix starts at the last dot of the
    name, when that dot is neither its first nor its last character. *)
Definition file_ext (filepath : string) : string :=
  match rpartition "." (name filepath) with
  | Some (before, behind) =>
      if (before =? "") || (behind =? "") then EmptyString else behind
  | None => EmptyString
  end.

(** ** The world the program runs in

    What the program reads from its environment, the version-control system
    and the file system.  A [None] stands for a call that raises.  The
    diagnostics the program writes to [stderr] are not modelled. *)

Record Env : Type := {
  GITHUB_EVENT_NAME : option string;      (* os.environ.get(...) *)
  GITHUB_BASE_REF : option string;
  popen_read : string -> option string;   (* os.popen(cmd).read(), after the fetch *)
  path_exists : string -> bool;           (* os.path.exists *)
  rglob : string -> list string;          (* [str(f) for f in Path('.').rglob(pattern)] *)
  read_text : string -> option string     (* open(filepath, 'r', encoding='utf-8').read() *)
}.

Definition nl : string := String newline EmptyString.

Definition get_changed_files (env : Env) : list string :=
  let cmd :=
    match GITHUB_EVENT_NAME env with
    | Some "pull_request" =>
        let base := match GITHUB_BASE_REF env with
                    | Some b => b
                    | None => "main"
                    end in
        "git diff --name-only origin/" ++ base ++ "...HEAD"
    | _ => "git diff --name-only HEAD~1"
    end in
  match popen_read env cmd with
  | Some out =>
      let result := Str.strip out in
      if (result =? "") then []
      else
        filter (fun f => negb (f =? "") && path_exists env f
                         && existsb (fun ext => Str.endswith f ext) FILE_EXTENSIONS)
               (Str.split newline result)
  | None => []
  end.

Definition extract_endpoints_from_file (env : Env) (filepath : string)
    : list string :=
  match read_text env filepath with
  | Some content =>
      extract_endpoints (get_patterns ENDPOINT_PATTERNS (file_ext filepath)) content
  | None => []
  end.

(** ** Reporter *)

Record Args : Type := {
  changed_only : bool;
  output_json : bool;
  all_files : bool
}.

(** The dictionary [{'file': ..., 'endpoint': ...}]. *)
Record endpoint_info : Type := { file : string; endpoint : string }.

(** The values handed to [json.dumps]; a dictionary lists its items in
    insertion order. *)
Inductive json : Type :=
| JBool (b : bool)
| JNum (n : nat)
| JStr (s : string)
| JList (l : list json)
| JDict (items : list (string * json)).

(** One call of [print]: of a string, or of [json.dumps(doc, indent=...)]. *)
Inductive printed : Type :=
| Line (s : string)
| Dumps (indent : option nat) (doc : json).

Definition info_json (i : endpoint_info) : json :=
  JDict [("file", JStr (file i)); ("endpoint", JStr (endpoint i))].

(** The state of the scan: [all_endpoints] and [violations]. *)
Definition scan_state : Type := (list endpoint_info * list endpoint_info)%type.

(** The body of [for endpoint in endpoints]. *)
Definition visit_endpoint (filepath : string) (st : scan_state)
    (endpoint : string) : scan_state :=
  let endpoint_info := {| file := filepath; endpoint := endpoint |} in
  let all_endpoints := (fst st ++ [endpoint_info])%list in
  if negb (validate_endpoint ALLOWED_PARENT_PATHS endpoint)
  then (all_endpoints, (snd st ++ [endpoint_info])%list)
  else (all_endpoints, snd st).

(** The body of [for filepath in files_to_check]. *)
Definition visit_file (env : Env) (st : scan_state) (filepath : string)
    : scan_state :=
  fold_left (visit_endpoint filepath) (extract_endpoints_from_file env filepath) st.

Definition scan_files (env : Env) (files_to_check : list string) : scan_state :=
  fold_left (visit_file env) files_to_check ([], []).

Definition is_empty {A : Type} (l : list A) : bool :=
  match l with
  | [] => true
  | _ => false
  end.

(** The report and the exit status, from [# Output results] on. *)
Definition report (args : Args) (files_to_check : list string)
    (st : scan_state) : list printed * nat :=
  let (all_endpoints, violations) := st in
  let out :=
    if output_json args then
      [Dumps (Some 2)
         (JDict [("success", JBool (List.length violations =? 0)%nat);
                 ("files_checked", JNum (List.length files_to_check));
                 ("total_endpoints", JNum (List.length all_endpoints));
                 ("violations", JList (map info_json violations));
                 ("allowed_paths", JList (map JStr ALLOWED_PARENT_PATHS))])]
    else
      ([Line "🔍 Endpoint Validation Report";
        Line (Str.repeat "=" 50);
        Line ("Files checked: " ++ Str.of_nat (List.length files_to_check));
        Line ("Endpoints found: " ++ Str.of_nat (List.length all_endpoints));
        Line ("Violations: " ++ Str.of_nat (List.length violations))]
       ++ (if is_empty violations
           then [Line (nl ++ "✅ All endpoints are valid!")]
           else
             [Line (nl ++ "❌ Invalid endpoints detected:" ++ nl)]
             ++ flat_map (fun v => [Line ("  File: " ++ file v);
                                    Line ("  Endpoint: " ++ endpoint v);
                                    Line ""]) violations
             ++ [Line "Allowed parent paths:"]
             ++ map (fun path => Line ("  ✓ " ++ path)) ALLOWED_PARENT_PATHS))%list
  in
  (out, if is_empty violations then 0 else 1).

(** [main], from the parsed arguments on: what it prints and the status it
    exits with. *)
Definition main (args : Args) (env : Env) : list printed * nat :=
  if changed_only args then
    let files_to_check := get_changed_files env in
    if is_empty files_to_check then
      ([if negb (output_json args) then Line "No changed files to check"
        else Dumps None (JDict [("success", JBool true);
                                ("message", JStr "No changed files to check")])],
       0)
    else report args files_to_check (scan_files env files_to_check)
  else if all_files args then
    let files_to_check :=
      flat_map (fun ext => rglob env ("*" ++ ext)) FILE_EXTENSIONS in
    report args files_to_check (scan_files env files_to_check)
  else
    let files_to_check := get_changed_files env in
    report args files_to_check (scan_files env files_to_check).

(** The list [main] binds to [files_to_check]. *)
Definition files_to_check (args : Args) (env : Env) : list string :=
  if changed_only args then get_changed_files env
  else if all_files args then
    flat_map (fun ext => rglob env ("*" ++ ext)) FILE_EXTENSIONS
  else get_changed_files env.

(** ** What the specification says about extraction *)

(** [s] cut at the first [c]: the characters before it, all of [s] when
    there is none. *)
Fixpoint truncate_at (c : ascii) (s : string) : string :=
  match s with
  | EmptyString => EmptyString
  | String a s' => if (a =? c)%char then EmptyString else String a (truncate_at c s')
  end.


(** A match survives when its candidate starts with a slash. *)
Definition survives (m : found) : bool := Str.startswith (candidate m) "/".

(** ** Two checks on the syntax of a rule *)





(** ** What the specification says about the report *)


Fixpoint lookup (key : string) (items : list (string * json)) : option json :=
  match items with
  | [] => None
  | (k, v) :: items' => if (key =? k)%string then Some v else lookup key items'
  end.

(** The [success] flag a printed JSON object reports. *)
Definition success_flag (p : printed) : option bool :=
  match p with
  | Dumps _ (JDict items) =>
      match lookup "success" items with
      | Some (JBool b) => Some b
      | _ => None
      end
  | _ => None
  end.


(** The records of the files, in the order of the files. *)
Definition records (env : Env) (files : list string) : list endpoint_info :=
  flat_map (fun f => map (Build_endpoint_info f) (extract_endpoints_from_file env f))
           files.

Definition is_violation (i : endpoint_info) : bool :=
  negb (validate_endpoint ALLOWED_PARENT_PATHS (endpoint i)).

Definition no_flags (json : bool) : Args :=
  {| changed_only := false; output_json := json; all_files := false |}.

Definition only_changed (json : bool) : Args :=
  {| changed_only := true; output_json := json; all_files := false |}.

(** ** Concrete runs *)

(** A push event in a working tree that holds [files] (path and content),
    where [git diff] prints [diff]. *)
Definition world (diff : string) (files : list (string * string)) : Env :=
  {| GITHUB_EVENT_NAME := Some "push";
     GITHUB_BASE_REF := None;
     popen_read := fun _ => Some diff;
     path_exists := fun f => existsb (String.eqb f) (map fst files);
     rglob := fun pattern =>
                match pattern with
                | String "*" ext =>
                    filter (fun f => Str.endswith f ext) (map fst files)
                | _ => []
                end;
     read_text := fun f =>
                    match find (fun kv => (f =? fst kv)%string) files with
                    | Some kv => Some (snd kv)
                    | None => None
                    end |}.

Definition unlines (lines : list string) : string := String.concat nl lines.

(** A Flask module with the two routes of scenario A. *)
Definition flask_two_routes : string :=
  unlines
    [ "from flask import Flask";
      "app = Flask(__name__)";
      "";
      "@app.route('/api/v1/users')";
      "def get_users():";
      "    return 'users'";
      "";
      "@app.route('/api/v4/health/status')";
      "def health_check():";
      "    return 'healthy'";
      "" ].

(** A module that declares one route twice. *)
Definition flask_route_twice : string :=
  unlines
    [ "@app.route('/api/v1/users')";
      "def get_users(): pass";
      "@app.route('/api/v1/users', methods=['POST'])";
      "def add_user(): pass" ].

(** One Go declaration, which both the Gorilla Mux rule and the standard
    [http] rule match. *)
Definition go_handle_func : string :=
  "http.HandleFunc(" ++ String dquote "/api/v1/users" ++ String dquote ", users)".


(** ** Notions used by the further properties *)

(** [t] occurs in [s]. *)
Definition Substring (t s : string) : Prop :=
  exists pre post, s = pre ++ t ++ post.

(** Every text captured so far occurs in [content]. *)
Definition captures_within (content : string) (cs : captures) : Prop :=
  forall i t, In (i, t) cs -> Substring t content.

(** The query [get_changed_files] puts to the version-control system: in a
    pull request the difference with the base branch ([main] when none is
    named), otherwise the difference with the previous commit. *)
Definition diff_command (env : Env) : string :=
  match GITHUB_EVENT_NAME env with
  | Some event =>
      if (event =? "pull_request")%string
      then "git diff --name-only origin/"
           ++ match GITHUB_BASE_REF env with
              | Some base => base
              | None => "main"
              end
           ++ "...HEAD"
      else "git diff --name-only HEAD~1"
  | None => "git diff --name-only HEAD~1"
  end.

(** Every character of [s] is white space ([s] may be empty). *)
Fixpoint all_space (s : string) : bool :=
  match s with
  | EmptyString => true
  | String c s' => Str.isspace c && all_space s'
  end.

(** A pull request against [develop] in which the difference with the base
    branch is blank, while any other query would name [app.py]. *)
Definition blank_pull_request : Env :=
  {| GITHUB_EVENT_NAME := Some "pull_request";
     GITHUB_BASE_REF := Some "develop";
     popen_read := fun cmd =>
                     if (cmd =? "git diff --name-only origin/develop...HEAD")%string
                     then Some (" " ++ nl ++ nl)
                     else Some ("app.py" ++ nl);
     path_exists := fun _ => true;
     rglob := fun _ => [];
     read_text := fun _ => Some flask_two_routes |}.

(** The flags [--all-files] (without [--changed-only]). *)
Definition every_file (json : bool) : Args :=
  {| changed_only := false; output_json := json; all_files := true |}.

(** * Properties *)

(** ** Strings *)

Lemma append_nil_r (s : string) : s ++ "" = s.
Proof. induction s as [|c s IH]; simpl; [reflexivity | now rewrite IH]. Qed.

Lemma append_assoc (a b c : string) : (a ++ b) ++ c = a ++ (b ++ c).
Proof. induction a as [|x a IH]; simpl; [reflexivity | now rewrite IH]. Qed.

Lemma length_append (a b : string) :
  String.length (a ++ b) = String.length a + String.length b.
Proof. induction a as [|x a IH]; simpl; [reflexivity | now rewrite IH]. Qed.

Lemma length_repeat (c : ascii) (k : nat) : String.length (Str.repeat c k) = k.
Proof. induction k as [|k IH]; simpl; [reflexivity | now rewrite IH]. Qed.

Lemma repeat_snoc (c : ascii) (k : nat) :
  Str.repeat c (S k) = Str.repeat c k ++ String c "".
Proof. induction k as [|k IH]; [reflexivity |]. simpl in *. now rewrite <- IH. Qed.

Lemma startswith_iff (s p : string) :
  Str.startswith s p = true <-> StartsWith s p.
Proof.
  unfold Str.startswith, StartsWith. revert s.
  induction p as [|a p IH]; intros s.
  - destruct s; simpl; split; intros _; try reflexivity; eexists; reflexivity.
  - destruct s as [|b s]; simpl.
    + split; [discriminate | intros [t Ht]; discriminate].
    + destruct (ascii_dec a b) as [->|Hab].
      * rewrite IH. split; intros [t Ht]; exists t.
        -- now rewrite Ht.
        -- now inversion Ht.
      * split; [discriminate | intros [t Ht]; inversion Ht; congruence].
Qed.

(** ** Stripping slashes *)

Lemma rstrip_slash_cons (c : ascii) (s : string) :
  Str.rstrip "/" (String c s) =
  match Str.rstrip "/" s with
  | EmptyString => if (c =? "/")%char then EmptyString else String c EmptyString
  | r => String c r
  end.
Proof.
  unfold Str.rstrip. simpl. now rewrite orb_false_r.
Qed.

Lemma rstrip_slash_decompose (s : string) :
  exists k, s = Str.rstrip "/" s ++ Str.repeat "/" k.
Proof.
  induction s as [|c s [k IH]].
  - exists 0. reflexivity.
  - rewrite rstrip_slash_cons.
    destruct (Str.rstrip "/" s) as [|d r] eqn:E.
    + destruct (Ascii.eqb_spec c "/") as [->|Hc].
      * exists (S k). simpl. now rewrite IH at 1.
      * exists k. simpl. now rewrite IH at 1.
    + exists k. simpl. now rewrite IH at 1.
Qed.

Lemma rstrip_slash_end (s : string) :
  ends_with_slash (Str.rstrip "/" s) = false.
Proof.
  induction s as [|c s IH]; [reflexivity |].
  rewrite rstrip_slash_cons.
  destruct (Str.rstrip "/" s) as [|d r] eqn:E.
  - destruct (Ascii.eqb_spec c "/") as [->|Hc]; simpl; [reflexivity |].
    now apply Ascii.eqb_neq.
  - exact IH.
Qed.

Lemma rstrip_slash_repeat (k : nat) : Str.rstrip "/" (Str.repeat "/" k) = "".
Proof.
  induction k as [|k IH]; [reflexivity |].
  simpl Str.repeat. rewrite rstrip_slash_cons, IH. reflexivity.
Qed.

Lemma rstrip_slash_append (a : string) (k : nat) :
  ends_with_slash a = false ->
  Str.rstrip "/" (a ++ Str.repeat "/" k) = a.
Proof.
  induction a as [|c a IH]; intros Ha.
  - apply rstrip_slash_repeat.
  - simpl append. rewrite rstrip_slash_cons.
    destruct a as [|d a'].
    + simpl in Ha. simpl append. rewrite rstrip_slash_repeat, Ha. reflexivity.
    + rewrite IH by exact Ha. reflexivity.
Qed.

(** [rstrip('/')] computes the stripped form, and nothing else is one. *)
Lemma Stripped_iff (s s' : string) : Stripped s s' <-> s' = Str.rstrip "/" s.
Proof.
  split.
  - intros [[k Hk] He]. subst s. now rewrite rstrip_slash_append.
  - intros ->. split; [apply rstrip_slash_decompose | apply rstrip_slash_end].
Qed.

Lemma strip_one_slash_snoc (s : string) : strip_one_slash (s ++ "/") = s.
Proof.
  induction s as [|c s IH]; [reflexivity |].
  simpl append. simpl strip_one_slash.
  destruct (s ++ "/") as [|d t] eqn:E.
  - destruct s; discriminate.
  - now rewrite IH.
Qed.

Lemma strip_one_slash_fixed (s : string) :
  ends_with_slash s = false -> strip_one_slash s = s.
Proof.
  induction s as [|c s IH]; intros Hs; [reflexivity |].
  destruct s as [|d s'].
  - simpl in *. now rewrite Hs.
  - simpl in Hs |- *. simpl in IH. now rewrite IH.
Qed.

Lemma strip_one_slash_iter (a : string) (n k : nat) :
  ends_with_slash a = false ->
  Nat.iter n strip_one_slash (a ++ Str.repeat "/" k) = a ++ Str.repeat "/" (k - n).
Proof.
  intros Ha. induction n as [|n IH].
  - now rewrite Nat.sub_0_r.
  - simpl Nat.iter. rewrite IH.
    destruct (k - n) as [|m] eqn:E.
    + replace (k - S n) with 0 by lia. simpl. rewrite append_nil_r.
      now apply strip_one_slash_fixed.
    + replace (k - S n) with m by lia.
      rewrite repeat_snoc, <- append_assoc. apply strip_one_slash_snoc.
Qed.

(** Stripping one slash until none is left is what [rstrip('/')] does. *)
Lemma rstrip_slash_is_strip_all (s : string) :
  Str.rstrip "/" s = strip_all_slashes s.
Proof.
  unfold strip_all_slashes.
  destruct (rstrip_slash_decompose s) as [k Hk].
  pose proof (rstrip_slash_end s) as He.
  remember (Str.rstrip "/" s) as r eqn:Hr. clear Hr. subst s.
  rewrite strip_one_slash_iter by exact He.
  rewrite length_append, length_repeat.
  replace (k - _) with 0 by lia.
  simpl. now rewrite append_nil_r.
Qed.

(** ** The validator's loop *)

Lemma validate_loop_existsb (e : string) (paths : list string) :
  validate_loop e paths =
  existsb (fun p => Str.startswith e (Str.rstrip "/" p ++ "/")
                    || (e =? Str.rstrip "/" p)) paths.
Proof.
  induction paths as [|p paths IH]; simpl; [reflexivity |].
  rewrite IH. now destruct (_ || _).
Qed.

Lemma validate_endpoint_true (allowed : list string) (e : string) :
  validate_endpoint allowed e = true <->
  exists p, In p allowed /\
            (Str.rstrip "/" e = Str.rstrip "/" p \/
             StartsWith (Str.rstrip "/" e) (Str.rstrip "/" p ++ "/")).
Proof.
  unfold validate_endpoint. rewrite validate_loop_existsb, existsb_exists.
  split; intros [p [Hin H]]; exists p; split; try exact Hin.
  - apply orb_true_iff in H as [H|H].
    + right. now apply startswith_iff.
    + left. now apply String.eqb_eq.
  - apply orb_true_iff. destruct H as [H|H].
    + right. now apply String.eqb_eq.
    + left. now apply startswith_iff.
Qed.

(** C1.  An endpoint is valid exactly when, for some entry of the allow-list,
    the endpoint with its trailing slashes stripped equals the entry with its
    trailing slashes stripped, or starts with that stripped entry followed by
    a slash.  Under the allow-list [/api/v1], [/api/v10/users] is invalid and
    both [/api/v1] and [/api/v1/] are valid. *)
Theorem validate_endpoint_iff_parent :
  (forall (allowed : list string) (E : string),
      validate_endpoint allowed E = true <->
      exists P E' P',
        In P allowed /\ Stripped E E' /\ Stripped P P' /\
        (E' = P' \/ StartsWith E' (P' ++ "/")))
  /\ validate_endpoint ["/api/v1"] "/api/v10/users" = false
  /\ validate_endpoint ["/api/v1"] "/api/v1" = true
  /\ validate_endpoint ["/api/v1"] "/api/v1/" = true.
Proof.
  split; [| repeat split; reflexivity].
  intros allowed E. rewrite validate_endpoint_true. split.
  - intros [P [Hin H]].
    exists P, (Str.rstrip "/" E), (Str.rstrip "/" P).
    repeat split; try exact Hin; try exact H;
      try apply rstrip_slash_decompose; apply rstrip_slash_end.
  - intros [P [E' [P' [Hin [HE [HP H]]]]]].
    apply Stripped_iff in HE, HP. subst E' P'.
    exists P; split; assumption.
Qed.

(** C3, as the claim states it, fails: with the entry [/api/v1//] the code
    compares against [/api/v1] and accepts [/api/v1/users], where stripping
    one slash would compare against [/api/v1/] and reject it. *)
Lemma strip_one_slash_refuted :
  Str.rstrip "/" "/api/v1//" = "/api/v1"
  /\ strip_one_slash "/api/v1//" = "/api/v1/"
  /\ validate_endpoint ["/api/v1//"] "/api/v1/users" = true
  /\ validate_spec strip_one_slash ["/api/v1//"] "/api/v1/users" = false
  /\ ~ (forall allowed e,
          validate_endpoint allowed e = validate_spec strip_one_slash allowed e).
Proof.
  repeat split; try reflexivity.
  intros H. specialize (H ["/api/v1//"] "/api/v1/users"). discriminate H.
Qed.

(** C3, amended.  The validator strips every trailing slash, not one: what it
    removes from the endpoint, and from each entry when it compares, is what
    removing one trailing slash again and again leaves; the comparison is
    made on these forms. *)
Theorem validate_endpoint_strips_all :
  (forall s, Str.rstrip "/" s = strip_all_slashes s)
  /\ (forall allowed e,
         validate_endpoint allowed e = validate_spec strip_all_slashes allowed e).
Proof.
  split; [exact rstrip_slash_is_strip_all |].
  intros allowed e. unfold validate_endpoint, validate_spec.
  rewrite validate_loop_existsb. rewrite <- rstrip_slash_is_strip_all.
  induction allowed as [|p allowed IH]; simpl; [reflexivity |].
  rewrite IH, <- rstrip_slash_is_strip_all.
  now rewrite (orb_comm (Str.startswith _ _)).
Qed.

(** C10.  When the allow-list has an entry made of slashes only, every
    endpoint that starts with a slash is valid. *)
Theorem root_entry_accepts_every_endpoint
    (allowed : list string) (p : string) (k : nat) (e : string) :
  In p allowed ->
  p = Str.repeat "/" k ->
  Str.startswith e "/" = true ->
  validate_endpoint allowed e = true.
Proof.
  intros Hin -> He. apply validate_endpoint_true.
  exists (Str.repeat "/" k). split; [exact Hin |].
  rewrite rstrip_slash_repeat.
  destruct (Str.rstrip "/" e) as [|c r] eqn:E; [now left | right].
  apply startswith_iff in He as [t Ht].
  destruct (rstrip_slash_decompose e) as [j Hj].
  rewrite E, Ht in Hj. simpl in Hj. inversion Hj; subst c.
  exists r. reflexivity.
Qed.

(** The allow-list with the root entry accepts [/internal/debug]. *)
Lemma root_entry_accepts_every_endpoint_witness :
  In "/" ["/api/v1"; "/"]
  /\ "/" = Str.repeat "/" 1
  /\ Str.startswith "/internal/debug" "/" = true
  /\ validate_endpoint ["/api/v1"; "/"] "/internal/debug" = true.
Proof.
  assert (Hin : In "/" ["/api/v1"; "/"]) by (simpl; right; left; reflexivity).
  split; [exact Hin |]. split; [reflexivity |]. split; [reflexivity |].
  apply (@root_entry_accepts_every_endpoint
           ["/api/v1"; "/"] "/" 1 "/internal/debug");
    [exact Hin | reflexivity | reflexivity].
Defined.

(** ** The extractor's loops *)

Lemma first_split (c : ascii) (s : string) :
  Str.first (Str.split c s) = truncate_at c s.
Proof.
  induction s as [|a s IH]; simpl; [reflexivity |].
  destruct (a =? c)%char; [reflexivity |].
  destruct (Str.split c s) as [|piece pieces]; simpl in *; now rewrite <- IH.
Qed.

Lemma clean_truncates (e : string) :
  clean e = truncate_at "#" (truncate_at "?" e).
Proof. unfold clean. now rewrite !first_split. Qed.

Lemma truncate_at_comm (a b : ascii) (s : string) :
  truncate_at a (truncate_at b s) = truncate_at b (truncate_at a s).
Proof.
  induction s as [|x s IH]; simpl; [reflexivity |].
  destruct (x =? b)%char eqn:Eb, (x =? a)%char eqn:Ea; simpl;
    rewrite ?Ea, ?Eb; try reflexivity.
  now rewrite IH.
Qed.

Lemma endpoints_of_match_survivor (m : found) :
  endpoints_of_match m = if survives m then [clean (candidate m)] else [].
Proof.
  unfold endpoints_of_match, survives.
  destruct (candidate m) as [|c t]; reflexivity.
Qed.

Lemma flat_map_flat_map {A B C : Type} (f : B -> list C) (g : A -> list B)
    (l : list A) :
  flat_map (fun x => flat_map f (g x)) l = flat_map f (flat_map g l).
Proof.
  induction l as [|x l IH]; simpl; [reflexivity |].
  now rewrite flat_map_app, IH.
Qed.

Lemma flat_map_survivors (l : list found) :
  flat_map endpoints_of_match l =
  map (fun m => clean (candidate m)) (filter survives l).
Proof.
  induction l as [|m l IH]; simpl; [reflexivity |].
  rewrite endpoints_of_match_survivor, IH. now destruct (survives m).
Qed.

Lemma extract_endpoints_survivors (patterns : list regex) (content : string) :
  extract_endpoints patterns content =
  map (fun m => clean (candidate m))
      (filter survives (flat_map (fun p => findall p content) patterns)).
Proof.
  unfold extract_endpoints.
  now rewrite (flat_map_flat_map endpoints_of_match), flat_map_survivors.
Qed.

(** C7.  A recorded endpoint is the candidate of a surviving match cut at the
    first [?] and at the first [#]; both cuts are always made, in either
    order with the same result; [/api/v1/users?x=1#frag] is recorded as
    [/api/v1/users]. *)
Theorem recorded_endpoint_is_truncated :
  (forall patterns content e,
      In e (extract_endpoints patterns content) <->
      exists pattern m,
        In pattern patterns /\ In m (findall pattern content) /\
        survives m = true /\
        e = truncate_at "#" (truncate_at "?" (candidate m)))
  /\ (forall s, clean s = truncate_at "#" (truncate_at "?" s))
  /\ (forall s, truncate_at "#" (truncate_at "?" s)
                = truncate_at "?" (truncate_at "#" s))
  /\ endpoints_of_match (MStr "/api/v1/users?x=1#frag") = ["/api/v1/users"].
Proof.
  split; [| split; [exact clean_truncates | split; [| reflexivity]]].
  - intros patterns content e.
    rewrite extract_endpoints_survivors, in_map_iff. split.
    + intros [m [He Hm]]. apply filter_In in Hm as [Hm Hs].
      apply in_flat_map in Hm as [pattern [Hp Hm]].
      exists pattern, m. rewrite <- clean_truncates. auto.
    + intros [pattern [m [Hp [Hm [Hs He]]]]]. exists m.
      rewrite clean_truncates. split; [now symmetry |].
      apply filter_In. split; [| exact Hs].
      apply in_flat_map. exists pattern. auto.
  - intros s. apply truncate_at_comm.
Qed.

(** C9.  The extractor emits one endpoint per surviving match, in the order
    of the rules and of the matches, and removes nothing: a path declared
    twice, or matched by two rules, is recorded twice for its file. *)
Theorem extractor_keeps_duplicates :
  (forall patterns content,
      extract_endpoints patterns content =
      map (fun m => clean (candidate m))
          (filter survives (flat_map (fun p => findall p content) patterns)))
  /\ (forall patterns content,
         List.length (extract_endpoints patterns content) =
         list_sum (map (fun p => List.length (filter survives (findall p content)))
                       patterns))
  /\ fst (scan_files (world "" [("app.py", flask_route_twice)]) ["app.py"]) =
     [ {| file := "app.py"; endpoint := "/api/v1/users" |};
       {| file := "app.py"; endpoint := "/api/v1/users" |} ]
  /\ fst (scan_files (world "" [("main.go", go_handle_func)]) ["main.go"]) =
     [ {| file := "main.go"; endpoint := "/api/v1/users" |};
       {| file := "main.go"; endpoint := "/api/v1/users" |} ].
Proof.
  split; [exact extract_endpoints_survivors |].
  split; [| split; vm_compute; reflexivity].
  intros patterns content. unfold extract_endpoints.
  induction patterns as [|p patterns IH]; simpl; [reflexivity |].
  rewrite length_app, IH, flat_map_survivors, length_map. reflexivity.
Qed.

(** ** The scan and the report *)

Lemma visit_endpoints (f : string) (es : list string) (st : scan_state) :
  fold_left (visit_endpoint f) es st =
  ((fst st ++ map (Build_endpoint_info f) es)%list,
   (snd st ++ filter is_violation (map (Build_endpoint_info f) es))%list).
Proof.
  revert st. induction es as [|e es IH]; intros [a v]; simpl.
  - now rewrite !app_nil_r.
  - rewrite IH. unfold visit_endpoint, is_violation. simpl.
    destruct (validate_endpoint ALLOWED_PARENT_PATHS e); simpl;
      now rewrite <- !app_assoc.
Qed.

Lemma visit_files (env : Env) (files : list string) (st : scan_state) :
  fold_left (visit_file env) files st =
  ((fst st ++ records env files)%list,
   (snd st ++ filter is_violation (records env files))%list).
Proof.
  revert st. induction files as [|f files IH]; intros [a v]; simpl.
  - now rewrite !app_nil_r.
  - rewrite IH. unfold visit_file. rewrite visit_endpoints. simpl.
    now rewrite filter_app, <- !app_assoc.
Qed.

(** The scan collects the records of the files, and among them the
    violations, both in order. *)
Lemma scan_files_records (env : Env) (files : list string) :
  scan_files env files =
  (records env files, filter is_violation (records env files)).
Proof. unfold scan_files. now rewrite visit_files. Qed.

Lemma violations_nil (env : Env) (files : list string) :
  snd (scan_files env files) = [] <->
  ~ exists f e, In f files /\ In e (extract_endpoints_from_file env f) /\
                validate_endpoint ALLOWED_PARENT_PATHS e = false.
Proof.
  rewrite scan_files_records. simpl. split.
  - intros H [f [e [Hf [He Hv]]]].
    assert (Hin : In {| file := f; endpoint := e |}
                     (filter is_violation (records env files))).
    { apply filter_In. split.
      - apply in_flat_map. exists f. split; [exact Hf |]. now apply in_map.
      - unfold is_violation. simpl. now rewrite Hv. }
    rewrite H in Hin. exact Hin.
  - intros H.
    destruct (filter is_violation (records env files)) as [|i l] eqn:E;
      [reflexivity | exfalso].
    assert (Hin : In i (filter is_violation (records env files)))
      by (rewrite E; now left).
    apply filter_In in Hin as [Hi Hv].
    apply in_flat_map in Hi as [f [Hf Hi]].
    apply in_map_iff in Hi as [e [<- He]].
    apply H. exists f, e. repeat split; try assumption.
    unfold is_violation in Hv. simpl in Hv. now apply negb_true_iff.
Qed.

(** [main] in one piece: the early exit, or the report on the resolved
    files. *)
Lemma main_unfold (args : Args) (env : Env) :
  main args env =
  if changed_only args && is_empty (get_changed_files env) then
    ([if negb (output_json args) then Line "No changed files to check"
      else Dumps None (JDict [("success", JBool true);
                              ("message", JStr "No changed files to check")])],
     0)
  else report args (files_to_check args env)
              (scan_files env (files_to_check args env)).
Proof.
  unfold main, files_to_check.
  destruct (changed_only args); simpl; [| now destruct (all_files args)].
  now destruct (is_empty (get_changed_files env)).
Qed.

Lemma report_status (args : Args) (files : list string) (st : scan_state) :
  snd (report args files st) = if is_empty (snd st) then 0 else 1.
Proof. destruct st as [a v]. reflexivity. Qed.

Lemma is_empty_length {A : Type} (l : list A) :
  (List.length l =? 0)%nat = is_empty l.
Proof. now destruct l. Qed.

Lemma main_status (args : Args) (env : Env) :
  snd (main args env) =
  if is_empty (snd (scan_files env (files_to_check args env))) then 0 else 1.
Proof.
  rewrite main_unfold.
  destruct (changed_only args && is_empty (get_changed_files env)) eqn:E.
  - apply andb_true_iff in E as [Hc He].
    unfold files_to_check. rewrite Hc.
    destruct (get_changed_files env); [reflexivity | discriminate].
  - apply report_status.
Qed.

Lemma violation_In (env : Env) (files : list string) (i : endpoint_info) :
  In i (snd (scan_files env files)) <->
  In (file i) files /\ In (endpoint i) (extract_endpoints_from_file env (file i))
  /\ validate_endpoint ALLOWED_PARENT_PATHS (endpoint i) = false.
Proof.
  rewrite scan_files_records. simpl. rewrite filter_In.
  unfold records, is_violation. rewrite in_flat_map, negb_true_iff. split.
  - intros [[f [Hf Hi]] Hv]. apply in_map_iff in Hi as [e [<- He]]. simpl in *. auto.
  - intros [Hf [He Hv]]. split; [| exact Hv].
    exists (file i). split; [exact Hf |].
    apply in_map_iff. exists (endpoint i). split; [now destruct i | exact He].
Qed.

(** C6.  The exit status is 1 exactly when an endpoint extracted from a
    resolved file fails validation and 0 otherwise, whatever the flags and
    the environment; a JSON report gives [success] as true exactly when the
    list of violations is empty. *)
Theorem exit_status_iff_violation (args : Args) (env : Env) :
  let files := files_to_check args env in
  let failing :=
    exists f e, In f files /\ In e (extract_endpoints_from_file env f) /\
                validate_endpoint ALLOWED_PARENT_PATHS e = false in
  (snd (main args env) = 1 <-> failing)
  /\ (snd (main args env) = 0 <-> ~ failing)
  /\ fst (main args env) <> []
  /\ Forall (fun p => success_flag p =
                      if output_json args
                      then Some (is_empty (snd (scan_files env files)))
                      else None)
            (fst (main args env)).
Proof.
  intros files failing.
  assert (Hcase : (snd (scan_files env files) = [] /\ ~ failing)
                  \/ (snd (scan_files env files) <> [] /\ failing)).
  { destruct (snd (scan_files env files)) as [|i l] eqn:E.
    - left. split; [reflexivity |]. now apply violations_nil.
    - right. split; [discriminate |].
      assert (Hi : In i (snd (scan_files env files))) by (rewrite E; now left).
      apply violation_In in Hi as [Hf [He Hv]].
      exists (file i), (endpoint i). auto. }
  split; [| split; [| split]].
  - rewrite main_status. fold files.
    destruct Hcase as [[-> Hn] | [Hv Hf]]; simpl.
    + split; [discriminate | intros H; now destruct Hn].
    + destruct (snd (scan_files env files)); [now destruct Hv | now split].
  - rewrite main_status. fold files.
    destruct Hcase as [[-> Hn] | [Hv Hf]]; simpl.
    + now split.
    + destruct (snd (scan_files env files)); [now destruct Hv |].
      split; [discriminate | intros H; now destruct H].
  - rewrite main_unfold.
    destruct (changed_only args && is_empty (get_changed_files env));
      [discriminate |].
    unfold report. destruct (scan_files env (files_to_check args env)) as [a v].
    simpl. destruct (output_json args); discriminate.
  - rewrite main_unfold. fold files.
    destruct (changed_only args && is_empty (get_changed_files env)) eqn:E.
    + apply andb_true_iff in E as [Hc He].
      assert (Hfiles : files = []).
      { unfold files, files_to_check. rewrite Hc.
        now destruct (get_changed_files env). }
      rewrite Hfiles. simpl.
      destruct (output_json args); repeat constructor.
    + unfold report. destruct (scan_files env files) as [a v].
      cbv beta iota zeta delta [fst snd].
      destruct (output_json args).
      * repeat constructor. simpl. now rewrite is_empty_length.
      * apply Forall_app. split; [repeat constructor |].
        destruct (is_empty v); [repeat constructor |].
        repeat (apply Forall_app; split); try (repeat constructor; fail).
        apply Forall_flat_map, Forall_forall. intros w _. repeat constructor.
Qed.






(** C8.  Scenario A.  A [.py] file that declares the routes [/api/v1/users]
    and [/api/v4/health/status] yields these two endpoints; the second is the
    one violation; the run, when that file is the one resolved, reports
    [success] false, one violation, and exits with status 1. *)
Theorem scenario_two_flask_routes (args : Args) (env : Env) (f : string) :
  file_ext f = "py" ->
  read_text env f = Some flask_two_routes ->
  files_to_check args env = [f] ->
  ALLOWED_PARENT_PATHS = ["/api/v1"; "/api/v2"; "/api/v3"]
  /\ extract_endpoints_from_file env f = ["/api/v1/users"; "/api/v4/health/status"]
  /\ map (validate_endpoint ALLOWED_PARENT_PATHS)
         (extract_endpoints_from_file env f) = [true; false]
  /\ snd (scan_files env [f]) = [ {| file := f; endpoint := "/api/v4/health/status" |} ]
  /\ snd (main args env) = 1
  /\ (if output_json args
      then fst (main args env) =
           [Dumps (Some 2)
              (JDict [("success", JBool false);
                      ("files_checked", JNum 1);
                      ("total_endpoints", JNum 2);
                      ("violations",
                        JList [JDict [("file", JStr f);
                                      ("endpoint", JStr "/api/v4/health/status")]]);
                      ("allowed_paths",
                        JList [JStr "/api/v1"; JStr "/api/v2"; JStr "/api/v3"])])]
      else In (Line "Violations: 1") (fst (main args env))).
Proof.
  intros Hext Hread Hfiles.
  assert (Hex : extract_endpoints_from_file env f
                = ["/api/v1/users"; "/api/v4/health/status"]).
  { unfold extract_endpoints_from_file. rewrite Hread, Hext.
    vm_compute. reflexivity. }
  assert (Hscan : scan_files env [f] =
                  ([ {| file := f; endpoint := "/api/v1/users" |};
                     {| file := f; endpoint := "/api/v4/health/status" |} ],
                   [ {| file := f; endpoint := "/api/v4/health/status" |} ])).
  { rewrite scan_files_records. unfold records. simpl. rewrite Hex. reflexivity. }
  assert (Hlate : changed_only args && is_empty (get_changed_files env) = false).
  { unfold files_to_check in Hfiles.
    destruct (changed_only args); [| reflexivity].
    now rewrite Hfiles. }
  split; [reflexivity |]. split; [exact Hex |].
  split; [now rewrite Hex |]. split; [now rewrite Hscan |].
  split.
  - rewrite main_status, Hfiles, Hscan. reflexivity.
  - rewrite main_unfold, Hlate, Hfiles, Hscan. unfold report.
    destruct (output_json args); simpl; [reflexivity | tauto].
Qed.

(** The scenario, run without file-selection flags on a push that changed
    [app.py]. *)
Lemma scenario_two_flask_routes_witness :
  let env := world "app.py" [("app.py", flask_two_routes)] in
  file_ext "app.py" = "py"
  /\ read_text env "app.py" = Some flask_two_routes
  /\ files_to_check (no_flags true) env = ["app.py"]
  /\ snd (main (no_flags true) env) = 1.
Proof.
  split; [reflexivity |]. split; [reflexivity |]. split; [reflexivity |].
  apply (@scenario_two_flask_routes
           (no_flags true) (world "app.py" [("app.py", flask_two_routes)])
           "app.py" eq_refl eq_refl eq_refl).
Defined.

(** ** Matches of the rules *)

Lemma one_char_In (ok : ascii -> bool) (s : string) (cs : captures) (m : result) :
  In m (one_char ok s cs) ->
  exists a s', s = String a s' /\ ok a = true /\ m = mk (String a "") s' cs.
Proof.
  destruct s as [|a s']; simpl; [intros [] |].
  destruct (ok a) eqn:E; simpl; [| intros []].
  intros [<- | []]. now exists a, s'.
Qed.

(** A match splits the text into what it consumed and what is left. *)
Lemma star_loop_splits (step : string -> captures -> list result) :
  (forall s cs m, In m (step s cs) -> s = text m ++ rest m) ->
  forall fuel s cs m, In m (star_loop step fuel s cs) -> s = text m ++ rest m.
Proof.
  intros Hstep. induction fuel as [|fuel IH]; simpl; intros s cs m Hm.
  - destruct Hm as [<- | []]. reflexivity.
  - apply in_app_or in Hm as [Hm | [<- | []]]; [| reflexivity].
    apply in_flat_map in Hm as [m1 [Hm1 Hm]].
    destruct (text m1 =? "")%string; [destruct Hm |].
    apply in_map_iff in Hm as [m2 [<- Hm2]]. simpl.
    rewrite append_assoc, <- (IH _ _ _ Hm2). now apply Hstep in Hm1.
Qed.

Lemma run_splits (r : regex) (s : string) (cs : captures) (m : result) :
  In m (run r s cs) -> s = text m ++ rest m.
Proof.
  revert s cs m.
  induction r as [| c | | | set | set | r1 IH1 r2 IH2 | r1 IH1 r2 IH2 | r1 IH1 | i r1 IH1];
    intros s cs m Hm;
    try (apply one_char_In in Hm as [a [s' [-> [_ ->]]]]; reflexivity).
  - destruct Hm as [<- | []]. reflexivity.
  - simpl in Hm. apply in_flat_map in Hm as [m1 [Hm1 Hm]].
    apply in_map_iff in Hm as [m2 [<- Hm2]]. simpl.
    rewrite append_assoc, <- (IH2 _ _ _ Hm2). now apply IH1 in Hm1.
  - simpl in Hm. apply in_app_or in Hm as [Hm | Hm]; eauto.
  - exact (@star_loop_splits (run r1) IH1 (S (String.length s)) s cs m Hm).
  - simpl in Hm. apply in_map_iff in Hm as [m1 [<- Hm1]]. simpl. eauto.
Qed.

Lemma flat_map_eq_in {A B : Type} (f g : A -> list B) (l : list A) :
  (forall x, In x l -> f x = g x) -> flat_map f l = flat_map g l.
Proof.
  induction l as [|x l IH]; simpl; intros H; [reflexivity |].
  rewrite (H x) by now left. rewrite IH; [reflexivity |].
  intros y Hy. apply H. now right.
Qed.

(** The fuel of a starred pattern is enough: more of it changes nothing. *)
Lemma star_loop_fuel (step : string -> captures -> list result) :
  (forall s cs m, In m (step s cs) -> s = text m ++ rest m) ->
  forall fuel fuel' s cs,
    String.length s < fuel -> String.length s < fuel' ->
    star_loop step fuel s cs = star_loop step fuel' s cs.
Proof.
  intros Hstep. induction fuel as [|fuel IH]; intros fuel' s cs H1 H2; [lia |].
  destruct fuel' as [|fuel']; [lia |]. simpl. f_equal.
  apply flat_map_eq_in. intros m1 Hm1.
  destruct (text m1) as [|a t] eqn:Et; [reflexivity |]. simpl.
  apply Hstep in Hm1. rewrite Et in Hm1.
  assert (Hlen : String.length (rest m1) < String.length s).
  { rewrite Hm1. simpl. rewrite length_append. lia. }
  rewrite (IH fuel') by lia. reflexivity.
Qed.

Lemma run_star_fuel (r : regex) (s : string) (cs : captures) (fuel : nat) :
  String.length s < fuel -> run (Star r) s cs = star_loop (run r) fuel s cs.
Proof.
  intros H. change (run (Star r) s cs)
    with (star_loop (run r) (S (String.length s)) s cs).
  apply star_loop_fuel; [| lia | exact H].
  intros s0 cs0 m. apply run_splits.
Qed.






Lemma assoc_In (i : nat) (cs : captures) (t : string) :
  assoc i cs = Some t -> In (i, t) cs.
Proof.
  induction cs as [|[j u] cs IH]; simpl; [discriminate |].
  destruct (Nat.eqb_spec i j) as [->|Hij].
  - intros [= ->]. now left.
  - intros H. right. now apply IH.
Qed.








(** * Further properties of the code *)

(** ** The validator *)

Lemma repeat_add (c : ascii) (j n : nat) :
  Str.repeat c j ++ Str.repeat c n = Str.repeat c (j + n).
Proof. induction j as [|j IH]; simpl; [reflexivity | now rewrite IH]. Qed.

Lemma rstrip_slash_more (s : string) (n : nat) :
  Str.rstrip "/" (s ++ Str.repeat "/" n) = Str.rstrip "/" s.
Proof.
  destruct (rstrip_slash_decompose s) as [j Hj].
  rewrite Hj at 1. rewrite append_assoc, repeat_add.
  apply rstrip_slash_append, rstrip_slash_end.
Qed.

(** Stripping a concatenation: the slashes at the end of the first part go
    only when the second part is made of slashes. *)
Lemma rstrip_slash_app (a b : string) :
  Str.rstrip "/" (a ++ b) =
  match Str.rstrip "/" b with
  | EmptyString => Str.rstrip "/" a
  | r => a ++ r
  end.
Proof.
  induction a as [|c a IH].
  - simpl. now destruct (Str.rstrip "/" b).
  - simpl append. rewrite !rstrip_slash_cons, IH.
    destruct (Str.rstrip "/" b) as [|d r]; [reflexivity |].
    now destruct a.
Qed.

Lemma rstrip_slash_child (e t : string) :
  Str.rstrip "/" (e ++ "/" ++ t) = Str.rstrip "/" e
  \/ StartsWith (Str.rstrip "/" (e ++ "/" ++ t)) (Str.rstrip "/" e ++ "/").
Proof.
  rewrite rstrip_slash_app.
  destruct (Str.rstrip "/" ("/" ++ t)) as [|d r] eqn:E; [now left | right].
  simpl in E. rewrite rstrip_slash_cons in E.
  assert (Hd : d = "/"%char).
  { destruct (Str.rstrip "/" t); [discriminate E | now inversion E]. }
  subst d. destruct (rstrip_slash_decompose e) as [k Hk].
  exists (Str.repeat "/" k ++ r).
  rewrite Hk at 1. rewrite !append_assoc. f_equal.
  change (String "/" r) with (Str.repeat "/" 1 ++ r).
  change (String "/" EmptyString ++ Str.repeat "/" k ++ r)
    with (Str.repeat "/" 1 ++ Str.repeat "/" k ++ r).
  rewrite <- !append_assoc, !repeat_add. f_equal. f_equal. lia.
Qed.

(** X1.  The allow-list is a union: an endpoint is valid for two lists put
    together exactly when it is valid for one of them, so neither the order
    of the entries nor a repeated entry changes the verdict, and adding
    entries never makes a valid endpoint invalid. *)
Theorem validate_endpoint_union (a b : list string) (e : string) :
  validate_endpoint (a ++ b)%list e = validate_endpoint a e || validate_endpoint b e.
Proof.
  unfold validate_endpoint. rewrite !validate_loop_existsb.
  apply existsb_app.
Qed.

(** X2.  Trailing slashes never matter: any number of them added to the
    endpoint, and any number added to each entry of the allow-list, leave
    the verdict as it is. *)
Theorem validate_endpoint_ignores_trailing_slashes
    (allowed : list string) (e : string) (n : nat) (k : string -> nat) :
  validate_endpoint (map (fun p => p ++ Str.repeat "/" (k p)) allowed)
                    (e ++ Str.repeat "/" n)
  = validate_endpoint allowed e.
Proof.
  unfold validate_endpoint. rewrite !validate_loop_existsb, rstrip_slash_more.
  induction allowed as [|p allowed IH]; simpl; [reflexivity |].
  now rewrite IH, rstrip_slash_more.
Qed.

Lemma validate_endpoint_child (allowed : list string) (e t : string) :
  validate_endpoint allowed e = true ->
  validate_endpoint allowed (e ++ "/" ++ t) = true.
Proof.
  intros He. apply validate_endpoint_true in He as [p [Hp He]].
  apply validate_endpoint_true. exists p. split; [exact Hp |].
  destruct (rstrip_slash_child e t) as [-> | [u Hu]]; [exact He |].
  right. rewrite Hu. destruct He as [-> | [v ->]].
  - now exists u.
  - exists (v ++ "/" ++ u). now rewrite !append_assoc.
Qed.

Lemma validate_endpoint_entry (allowed : list string) (p : string) :
  In p allowed -> validate_endpoint allowed p = true.
Proof. intros Hp. apply validate_endpoint_true. exists p. auto. Qed.

(** X3.  Validity passes to the paths below: when an endpoint is valid, so
    is that endpoint followed by a slash and anything. *)
Theorem valid_endpoint_covers_paths_below (allowed : list string) (e t : string) :
  validate_endpoint allowed e = true ->
  validate_endpoint allowed (e ++ "/" ++ t) = true.
Proof.
  intros He. apply validate_endpoint_true in He as [p [Hp He]].
  apply validate_endpoint_true. exists p. split; [exact Hp |].
  destruct (rstrip_slash_child e t) as [Hsame | [u Hu]].
  - rewrite Hsame. exact He.
  - right. rewrite Hu. destruct He as [-> | [v ->]].
    + now exists u.
    + exists (v ++ "/" ++ u). now rewrite !append_assoc.
Qed.

Lemma valid_endpoint_covers_paths_below_witness :
  validate_endpoint ALLOWED_PARENT_PATHS "/api/v2/orders" = true
  /\ validate_endpoint ALLOWED_PARENT_PATHS ("/api/v2/orders" ++ "/" ++ "7/items")
     = true.
Proof.
  split; [reflexivity |].
  exact (@valid_endpoint_covers_paths_below
           ALLOWED_PARENT_PATHS "/api/v2/orders" "7/items" eq_refl).
Defined.

(** X4.  Every entry of the allow-list is a valid endpoint, with or without
    trailing slashes of its own, and so is every path below it. *)
Theorem allowed_entry_is_valid (allowed : list string) (p t : string) :
  In p allowed ->
  validate_endpoint allowed p = true
  /\ validate_endpoint allowed (p ++ "/" ++ t) = true.
Proof.
  intros Hp. split; [now apply validate_endpoint_entry |].
  now apply validate_endpoint_child, validate_endpoint_entry.
Qed.

Lemma allowed_entry_is_valid_witness :
  In "/api/v1/" ["/api/v1/"]
  /\ validate_endpoint ["/api/v1/"] "/api/v1/" = true
  /\ validate_endpoint ["/api/v1/"] ("/api/v1/" ++ "/" ++ "users/7") = true.
Proof.
  assert (Hin : In "/api/v1/" ["/api/v1/"]) by (now left).
  split; [exact Hin |].
  exact (@allowed_entry_is_valid ["/api/v1/"] "/api/v1/" "users/7" Hin).
Defined.

(** ** The change-set resolver *)

Lemma split_pieces_no_sep (sep : ascii) (s piece : string) :
  In piece (Str.split sep s) -> Str.mem sep piece = false.
Proof.
  revert piece. induction s as [|c s IH]; simpl; intros piece H.
  - destruct H as [<- | []]. reflexivity.
  - destruct (c =? sep)%char eqn:E.
    + destruct H as [<- | H]; [reflexivity | now apply IH].
    + destruct (Str.split sep s) as [|q qs].
      * destruct H as [<- | []]. simpl. rewrite Ascii.eqb_sym, E. reflexivity.
      * destruct H as [<- | H].
        -- simpl. rewrite Ascii.eqb_sym, E. simpl. apply IH. now left.
        -- apply IH. now right.
Qed.

Lemma endswith_iff (s suf : string) :
  Str.endswith s suf = true <-> exists pre, s = pre ++ suf.
Proof.
  induction s as [|c s IH].
  - split.
    + intros H. destruct suf; [now exists "" | discriminate H].
    + intros [pre H]. destruct pre, suf; try discriminate H. reflexivity.
  - change (Str.endswith (String c s) suf)
      with ((String c s =? suf) || Str.endswith s suf).
    rewrite orb_true_iff, String.eqb_eq, IH. split.
    + intros [<- | [pre ->]]; [now exists "" | now exists (String c pre)].
    + intros [pre H]. destruct pre as [|d pre]; [now left | right].
      inversion H. now exists pre.
Qed.

(** X5.  Every file the resolver returns can be scanned: its path is not
    empty, holds no line break, exists on disk, and ends with one of the
    recognised extensions. *)
Theorem changed_file_is_checkable (env : Env) (f : string) :
  In f (get_changed_files env) ->
  f <> ""
  /\ Str.mem newline f = false
  /\ path_exists env f = true
  /\ exists ext pre, In ext FILE_EXTENSIONS /\ f = pre ++ ext.
Proof.
  unfold get_changed_files.
  destruct (popen_read env _) as [out|]; [| intros []].
  destruct (Str.strip out =? "")%string; [intros [] |].
  intros H. apply filter_In in H as [Hline H].
  apply andb_true_iff in H as [H Hext]. apply andb_true_iff in H as [Hne Hex].
  split; [| split; [| split]].
  - apply negb_true_iff in Hne. now apply String.eqb_neq.
  - exact (split_pieces_no_sep _ _ _ Hline).
  - exact Hex.
  - apply existsb_exists in Hext as [ext [Hin Hend]].
    apply endswith_iff in Hend as [pre ->]. now exists ext, pre.
Qed.

Lemma changed_file_is_checkable_witness :
  let env := world ("README.md" ++ nl ++ "app.py" ++ nl ++ "gone.py" ++ nl)
                   [("README.md", ""); ("app.py", flask_two_routes)] in
  In "app.py" (get_changed_files env)
  /\ get_changed_files env = ["app.py"]
  /\ path_exists env "app.py" = true.
Proof.
  assert (Hin : In "app.py"
                   (get_changed_files
                      (world ("README.md" ++ nl ++ "app.py" ++ nl ++ "gone.py" ++ nl)
                             [("README.md", ""); ("app.py", flask_two_routes)])))
    by (vm_compute; left; reflexivity).
  split; [exact Hin |]. split; [reflexivity |].
  exact (proj1 (proj2 (proj2 (changed_file_is_checkable _ _ Hin)))).
Defined.

Lemma rstrip_all_space (s : string) :
  all_space s = true -> Str.rstrip_by Str.isspace s = "".
Proof.
  induction s as [|c s IH]; simpl; [reflexivity |].
  intros H. apply andb_true_iff in H as [Hc Hs].
  now rewrite (IH Hs), Hc.
Qed.

Lemma strip_all_space (s : string) : all_space s = true -> Str.strip s = "".
Proof.
  intros H. unfold Str.strip. now rewrite (rstrip_all_space s H).
Qed.

(** Matching the event name against [pull_request] is the test of an
    equality. *)
Lemma pull_request_case {T : Type} (event : string) (yes no : T) :
  match event with
  | "pull_request" => yes
  | _ => no
  end = if (event =? "pull_request")%string then yes else no.
Proof.
  destruct (String.eqb_spec event "pull_request") as [-> | Hne]; [reflexivity |].
  do 12 (destruct event as [|c event]; [reflexivity |];
         destruct c as [[] [] [] [] [] [] [] []]; try reflexivity).
  destruct event; [now destruct Hne | reflexivity].
Qed.

(** The resolver puts one query, [diff_command], and reads nothing else of
    the version-control system. *)
Lemma get_changed_files_query (env : Env) :
  get_changed_files env =
  match popen_read env (diff_command env) with
  | Some out =>
      if (Str.strip out =? "")%string then []
      else filter (fun f => negb (f =? "")%string && path_exists env f
                            && existsb (fun ext => Str.endswith f ext)
                                       FILE_EXTENSIONS)
                  (Str.split newline (Str.strip out))
  | None => []
  end.
Proof.
  unfold get_changed_files, diff_command.
  destruct (GITHUB_EVENT_NAME env) as [event|]; [| reflexivity].
  cbv zeta. rewrite pull_request_case.
  now destruct (event =? "pull_request")%string.
Qed.

(** X6.  The resolver never fails: when the one query it puts to the
    version-control system raises, or prints nothing but white space (or
    nothing at all), the list of changed files is empty, whatever any other
    query would print. *)
Theorem no_changed_files_when_query_fails_or_is_blank (env : Env) :
  match popen_read env (diff_command env) with
  | Some out => all_space out = true
  | None => True
  end ->
  get_changed_files env = [].
Proof.
  intros H. rewrite get_changed_files_query.
  destruct (popen_read env (diff_command env)) as [out|]; [| reflexivity].
  now rewrite (strip_all_space out H).
Qed.

Lemma no_changed_files_when_query_fails_or_is_blank_witness :
  diff_command blank_pull_request = "git diff --name-only origin/develop...HEAD"
  /\ popen_read blank_pull_request "git diff --name-only HEAD~1"
     = Some ("app.py" ++ nl)
  /\ get_changed_files blank_pull_request = [].
Proof.
  split; [reflexivity |]. split; [reflexivity |].
  apply (@no_changed_files_when_query_fails_or_is_blank blank_pull_request).
  reflexivity.
Defined.

(** ** The extractor *)

Lemma mem_truncate_at (c : ascii) (s : string) :
  Str.mem c (truncate_at c s) = false.
Proof.
  induction s as [|a s IH]; simpl; [reflexivity |].
  destruct (a =? c)%char eqn:E; [reflexivity |].
  simpl. now rewrite Ascii.eqb_sym, E.
Qed.

Lemma mem_truncate_at_other (c d : ascii) (s : string) :
  Str.mem d s = false -> Str.mem d (truncate_at c s) = false.
Proof.
  induction s as [|a s IH]; simpl; [reflexivity |].
  intros H. apply orb_false_iff in H as [H1 H2].
  destruct (a =? c)%char; [reflexivity |].
  simpl. now rewrite H1, IH.
Qed.

Lemma truncate_at_prefix (c : ascii) (s : string) :
  exists post, s = truncate_at c s ++ post.
Proof.
  induction s as [|a s [post IH]]; simpl; [now exists "" |].
  destruct (a =? c)%char; [now exists (String a s) |].
  exists post. simpl. now rewrite <- IH.
Qed.

Lemma truncate_at_absent (c : ascii) (s : string) :
  Str.mem c s = false -> truncate_at c s = s.
Proof.
  induction s as [|a s IH]; simpl; [reflexivity |].
  intros H. apply orb_false_iff in H as [H1 H2].
  rewrite Ascii.eqb_sym, H1. now rewrite IH.
Qed.

Lemma clean_shape (e : string) :
  Str.startswith e "/" = true ->
  Str.startswith (clean e) "/" = true
  /\ Str.mem "?" (clean e) = false /\ Str.mem "#" (clean e) = false.
Proof.
  intros He. split; [| split].
  - apply startswith_iff in He as [t ->]. rewrite clean_truncates.
    apply startswith_iff. simpl. eexists. reflexivity.
  - rewrite clean_truncates. apply mem_truncate_at_other, mem_truncate_at.
  - rewrite clean_truncates. apply mem_truncate_at.
Qed.

Lemma extract_endpoints_shape (patterns : list regex) (content e : string) :
  In e (extract_endpoints patterns content) ->
  Str.startswith e "/" = true
  /\ Str.mem "?" e = false /\ Str.mem "#" e = false.
Proof.
  rewrite extract_endpoints_survivors, in_map_iff.
  intros [m [<- Hm]]. apply filter_In in Hm as [_ Hm]. now apply clean_shape.
Qed.

(** X7.  Every endpoint the extractor records for a file starts with a slash
    and holds neither a question mark nor a hash sign. *)
Theorem extracted_endpoint_is_a_bare_path (env : Env) (f e : string) :
  In e (extract_endpoints_from_file env f) ->
  Str.startswith e "/" = true
  /\ Str.mem "?" e = false /\ Str.mem "#" e = false.
Proof.
  unfold extract_endpoints_from_file.
  destruct (read_text env f) as [content|]; [| intros []].
  apply extract_endpoints_shape.
Qed.

(** X8.  Cleaning an endpoint keeps a prefix of it, changes nothing when the
    endpoint has no question mark and no hash sign, and done twice is the
    same as done once. *)
Theorem clean_keeps_a_prefix (e : string) :
  (exists post, e = clean e ++ post)
  /\ (if Str.mem "?" e || Str.mem "#" e then True else clean e = e)
  /\ clean (clean e) = clean e.
Proof.
  rewrite !clean_truncates. split; [| split].
  - destruct (truncate_at_prefix "?" e) as [p1 H1].
    destruct (truncate_at_prefix "#" (truncate_at "?" e)) as [p2 H2].
    exists (p2 ++ p1). rewrite <- append_assoc, <- H2. exact H1.
  - destruct (Str.mem "?" e) eqn:E1, (Str.mem "#" e) eqn:E2; simpl; try exact I.
    rewrite (truncate_at_absent "?" e E1). now apply truncate_at_absent.
  - rewrite (truncate_at_absent "?" (truncate_at "#" (truncate_at "?" e))).
    + apply truncate_at_absent, mem_truncate_at.
    + apply mem_truncate_at_other, mem_truncate_at.
Qed.

Lemma extracted_endpoint_is_a_bare_path_witness :
  let env := world "" [("app.py", "@app.route('/api/v1/users?page=1#top')")] in
  In "/api/v1/users" (extract_endpoints_from_file env "app.py")
  /\ Str.startswith "/api/v1/users" "/" = true
  /\ Str.mem "?" "/api/v1/users" = false /\ Str.mem "#" "/api/v1/users" = false.
Proof.
  assert (Hin : In "/api/v1/users"
                   (extract_endpoints_from_file
                      (world "" [("app.py", "@app.route('/api/v1/users?page=1#top')")])
                      "app.py"))
    by (vm_compute; left; reflexivity).
  split; [exact Hin |].
  exact (extracted_endpoint_is_a_bare_path _ _ _ Hin).
Defined.

Lemma Substring_empty (s : string) : Substring "" s.
Proof. now exists "", s. Qed.

Lemma Substring_prefix (t post : string) : Substring t (t ++ post).
Proof. now exists "", post. Qed.

Lemma Substring_after (pre t s : string) :
  Substring t s -> Substring t (pre ++ s).
Proof.
  intros [a [b ->]]. exists (pre ++ a), b. now rewrite append_assoc.
Qed.

Lemma Substring_trans (a b c : string) :
  Substring a b -> Substring b c -> Substring a c.
Proof.
  intros [p1 [q1 ->]] [p2 [q2 ->]]. exists (p2 ++ p1), (q1 ++ q2).
  now rewrite !append_assoc.
Qed.

Lemma star_loop_captures_within (content : string)
    (step : string -> captures -> list result) :
  (forall s cs m, In m (step s cs) -> s = text m ++ rest m) ->
  (forall s cs m pre, content = pre ++ s -> captures_within content cs ->
                      In m (step s cs) -> captures_within content (caps m)) ->
  forall fuel s cs m pre,
    content = pre ++ s -> captures_within content cs ->
    In m (star_loop step fuel s cs) -> captures_within content (caps m).
Proof.
  intros Hsplit Hstep.
  induction fuel as [|fuel IH]; simpl; intros s cs m pre Hc Hcs Hm.
  - destruct Hm as [<- | []]. exact Hcs.
  - apply in_app_or in Hm as [Hm | [<- | []]]; [| exact Hcs].
    apply in_flat_map in Hm as [m1 [Hm1 Hm]].
    destruct (text m1 =? "")%string; [destruct Hm |].
    apply in_map_iff in Hm as [m2 [<- Hm2]]. simpl.
    apply (IH (rest m1) (caps m1) m2 (pre ++ text m1)).
    + rewrite append_assoc, <- (Hsplit _ _ _ Hm1). exact Hc.
    + exact (Hstep _ _ _ _ Hc Hcs Hm1).
    + exact Hm2.
Qed.

(** The texts a match captures are pieces of the text searched. *)
Lemma run_captures_within (content : string) (r : regex) :
  forall s cs m pre,
    content = pre ++ s -> captures_within content cs ->
    In m (run r s cs) -> captures_within content (caps m).
Proof.
  induction r as [| c | | | set | set | r1 IH1 r2 IH2 | r1 IH1 r2 IH2 | r1 IH1 | i r1 IH1];
    intros s cs m pre Hc Hcs Hm;
    try (apply one_char_In in Hm as [a [s' [_ [_ ->]]]]; exact Hcs).
  - destruct Hm as [<- | []]. exact Hcs.
  - simpl in Hm. apply in_flat_map in Hm as [m1 [Hm1 Hm]].
    apply in_map_iff in Hm as [m2 [<- Hm2]]. simpl.
    apply (IH2 (rest m1) (caps m1) m2 (pre ++ text m1)).
    + rewrite append_assoc, <- (run_splits _ _ _ _ Hm1). exact Hc.
    + exact (IH1 _ _ _ _ Hc Hcs Hm1).
    + exact Hm2.
  - simpl in Hm. apply in_app_or in Hm as [Hm | Hm]; eauto.
  - exact (@star_loop_captures_within content (run r1)
             (fun s0 cs0 m0 => @run_splits r1 s0 cs0 m0) IH1
             (S (String.length s)) s cs m pre Hc Hcs Hm).
  - simpl in Hm. apply in_map_iff in Hm as [m1 [<- Hm1]]. simpl.
    intros j t [Ht | Ht].
    + inversion Ht; subst j t. rewrite Hc, (run_splits _ _ _ _ Hm1).
      apply Substring_after, Substring_prefix.
    + exact (IH1 _ _ _ _ Hc Hcs Hm1 j t Ht).
Qed.

Lemma group_within (content : string) (m : result) (i : nat) :
  captures_within content (caps m) -> Substring (group m i) content.
Proof.
  intros H. unfold group.
  destruct (assoc i (caps m)) as [t|] eqn:E; [| apply Substring_empty].
  apply (H i). now apply assoc_In.
Qed.

(** What [re.findall] returns comes from a match at some place of the text,
    which is named here. *)
Lemma scan_In_place (r : regex) (s : string) (skip : nat) (x : found) :
  In x (scan r skip s) ->
  exists pre s' m, s = pre ++ s' /\ In m (run r s' []) /\ x = item r m.
Proof.
  assert (Hhere : forall s0 m, match_here r s0 = Some m -> In m (run r s0 [])).
  { unfold match_here. intros s0 m H.
    destruct (run r s0 []) as [|m0 l]; [discriminate |].
    injection H as ->. now left. }
  assert (Hcons : forall c s0,
             (exists pre s' m, s0 = pre ++ s' /\ In m (run r s' []) /\ x = item r m) ->
             exists pre s' m,
               String c s0 = pre ++ s' /\ In m (run r s' []) /\ x = item r m).
  { intros c s0 [pre [s' [m [-> H]]]]. now exists (String c pre), s', m. }
  revert skip. induction s as [|c s IH]; intros skip; destruct skip as [|skip]; simpl.
  - destruct (match_here r "") as [m|] eqn:E; [| intros []].
    intros [<- | []]. exists "", "", m. auto.
  - intros [].
  - destruct (match_here r (String c s)) as [m|] eqn:E.
    + intros [<- | H].
      * exists "", (String c s), m. auto.
      * apply Hcons. eapply IH. exact H.
    + intros H. apply Hcons. eapply IH. exact H.
  - intros H. apply Hcons. eapply IH. exact H.
Qed.

Lemma candidate_within (content : string) (r : regex) (x : found) :
  In x (findall r content) -> Substring (candidate x) content.
Proof.
  intros H. apply scan_In_place in H as [pre [s' [m [Hc [Hm ->]]]]].
  assert (Hcaps : captures_within content (caps m)).
  { apply (@run_captures_within content r s' [] m pre Hc); [| exact Hm].
    intros i t []. }
  unfold item. destruct (ngroups r) as [|[|n]]; simpl.
  - rewrite Hc, (run_splits _ _ _ _ Hm).
    apply Substring_after, Substring_prefix.
  - now apply group_within.
  - destruct (Str.startswith (group m 1) "/"); now apply group_within.
Qed.

Lemma extract_endpoints_within (patterns : list regex) (content e : string) :
  In e (extract_endpoints patterns content) -> Substring e content.
Proof.
  rewrite extract_endpoints_survivors, in_map_iff.
  intros [m [<- Hm]]. apply filter_In in Hm as [Hm _].
  apply in_flat_map in Hm as [r [_ Hm]].
  apply Substring_trans with (b := candidate m); [| exact (candidate_within _ _ _ Hm)].
  rewrite clean_truncates.
  destruct (truncate_at_prefix "?" (candidate m)) as [p1 H1].
  destruct (truncate_at_prefix "#" (truncate_at "?" (candidate m))) as [p2 H2].
  exists "", (p2 ++ p1). simpl. rewrite <- append_assoc, <- H2. exact H1.
Qed.

(** X9.  The extractor invents nothing: every endpoint it records for a file
    occurs, character for character, in the text of that file. *)
Theorem extracted_endpoint_occurs_in_file (env : Env) (f e : string) :
  In e (extract_endpoints_from_file env f) ->
  exists content, read_text env f = Some content /\ Substring e content.
Proof.
  unfold extract_endpoints_from_file.
  destruct (read_text env f) as [content|]; [| intros []].
  intros H. exists content. split; [reflexivity |].
  exact (extract_endpoints_within _ _ _ H).
Qed.

Lemma extracted_endpoint_occurs_in_file_witness :
  let env := world "" [("app.py", "@app.route('/api/v1/users?page=1#top')")] in
  In "/api/v1/users" (extract_endpoints_from_file env "app.py")
  /\ exists content,
       read_text env "app.py" = Some content /\ Substring "/api/v1/users" content.
Proof.
  assert (Hin : In "/api/v1/users"
                   (extract_endpoints_from_file
                      (world "" [("app.py", "@app.route('/api/v1/users?page=1#top')")])
                      "app.py"))
    by (vm_compute; left; reflexivity).
  split; [exact Hin |].
  exact (extracted_endpoint_occurs_in_file _ _ _ Hin).
Defined.

Lemma mem_app (c : ascii) (a b : string) :
  Str.mem c (a ++ b) = Str.mem c a || Str.mem c b.
Proof.
  induction a as [|x a IH]; simpl; [reflexivity |].
  now rewrite IH, orb_assoc.
Qed.

(** X10.  A file whose text holds no slash, an empty file among them, yields
    no endpoint, whatever its extension. *)
Theorem file_without_slash_has_no_endpoint (env : Env) (f content : string) :
  read_text env f = Some content ->
  Str.mem "/" content = false ->
  extract_endpoints_from_file env f = [].
Proof.
  intros Hread Hno. unfold extract_endpoints_from_file. rewrite Hread.
  destruct (extract_endpoints _ content) as [|e l] eqn:E; [reflexivity | exfalso].
  assert (Hin : In e (extract_endpoints
                        (get_patterns ENDPOINT_PATTERNS (file_ext f)) content))
    by (rewrite E; now left).
  destruct (extract_endpoints_shape _ _ _ Hin) as [Hs _].
  apply startswith_iff in Hs as [t ->].
  destruct (extract_endpoints_within _ _ _ Hin) as [pre [post Hc]].
  rewrite Hc, !mem_app in Hno. simpl in Hno.
  now rewrite orb_true_r in Hno.
Qed.

Lemma file_without_slash_has_no_endpoint_witness :
  let env := world "" [("util.py", "def path(x): return x")] in
  read_text env "util.py" = Some "def path(x): return x"
  /\ Str.mem "/" "def path(x): return x" = false
  /\ extract_endpoints_from_file env "util.py" = [].
Proof.
  split; [reflexivity |]. split; [reflexivity |].
  exact (@file_without_slash_has_no_endpoint
           (world "" [("util.py", "def path(x): return x")])
           "util.py" "def path(x): return x" eq_refl eq_refl).
Defined.

Lemma get_patterns_missing (table : list (string * list regex)) (key : string) :
  ~ In key (map fst table) -> get_patterns table key = [].
Proof.
  induction table as [|[k v] table IH]; simpl; intros H; [reflexivity |].
  destruct (String.eqb_spec key k) as [->|Hk].
  - destruct H. now left.
  - apply IH. intros Hin. apply H. now right.
Qed.

(** X11.  A file that cannot be read, or whose extension is none of [go],
    [js], [ts], [py], [java], [rb] (as written, in lower case), yields no
    endpoint. *)
Theorem file_without_rules_has_no_endpoint (env : Env) (f : string) :
  read_text env f = None
  \/ ~ In (file_ext f) ["go"; "js"; "ts"; "py"; "java"; "rb"] ->
  extract_endpoints_from_file env f = [].
Proof.
  unfold extract_endpoints_from_file. intros [H | H].
  - now rewrite H.
  - destruct (read_text env f); [| reflexivity].
    now rewrite (get_patterns_missing ENDPOINT_PATTERNS _ H).
Qed.

Lemma file_without_rules_has_no_endpoint_witness :
  let env := world "" [("API.PY", "@app.route('/internal/debug')")] in
  file_ext "API.PY" = "PY"
  /\ ~ In (file_ext "API.PY") ["go"; "js"; "ts"; "py"; "java"; "rb"]
  /\ extract_endpoints_from_file env "API.PY" = [].
Proof.
  assert (Hext : ~ In (file_ext "API.PY") ["go"; "js"; "ts"; "py"; "java"; "rb"]).
  { vm_compute. intros H.
    repeat (destruct H as [H | H]; [discriminate H |]). exact H. }
  split; [reflexivity |]. split; [exact Hext |].
  exact (@file_without_rules_has_no_endpoint
           (world "" [("API.PY", "@app.route('/internal/debug')")])
           "API.PY" (or_intror Hext)).
Defined.

(** ** The scan and the report, further *)

Lemma records_app (env : Env) (a b : list string) :
  records env (a ++ b)%list = (records env a ++ records env b)%list.
Proof. apply flat_map_app. Qed.

Lemma length_records (env : Env) (files : list string) :
  List.length (records env files) =
  list_sum (map (fun f => List.length (extract_endpoints_from_file env f)) files).
Proof.
  induction files as [|f files IH]; simpl; [reflexivity |].
  now rewrite length_app, length_map, IH.
Qed.

(** X12.  Files are scanned independently and in order: the scan of two
    lists of files put together collects the endpoints of the first list
    followed by those of the second, and likewise the violations. *)
Theorem scan_files_of_two_lists (env : Env) (a b : list string) :
  scan_files env (a ++ b)%list =
  ((fst (scan_files env a) ++ fst (scan_files env b))%list,
   (snd (scan_files env a) ++ snd (scan_files env b))%list).
Proof.
  rewrite !scan_files_records, records_app, filter_app. reflexivity.
Qed.

(** X13.  After the scan, the violations are the collected endpoints that
    fail validation, in the order they were collected, so there are at most
    as many violations as endpoints; the endpoints collected number the sum
    of what each file yields. *)
Theorem violations_are_the_failing_endpoints (env : Env) (files : list string) :
  snd (scan_files env files) =
    filter (fun i => negb (validate_endpoint ALLOWED_PARENT_PATHS (endpoint i)))
           (fst (scan_files env files))
  /\ List.length (snd (scan_files env files))
     <= List.length (fst (scan_files env files))
  /\ List.length (fst (scan_files env files)) =
     list_sum (map (fun f => List.length (extract_endpoints_from_file env f)) files).
Proof.
  rewrite scan_files_records. simpl. split; [reflexivity |].
  split; [apply filter_length_le | apply length_records].
Qed.

(** X14.  The exit status does not depend on [--output-json]: the flag
    changes what is printed, not the verdict. *)
Theorem status_is_independent_of_rendering
    (env : Env) (changed all json json' : bool) :
  snd (main {| changed_only := changed; output_json := json; all_files := all |} env)
  = snd (main {| changed_only := changed; output_json := json'; all_files := all |}
              env).
Proof. rewrite !main_status. reflexivity. Qed.

(** X15.  [--changed-only] wins over [--all-files]: given together, the run
    is the run of [--changed-only] alone. *)
Theorem changed_only_overrides_all_files (env : Env) (json all : bool) :
  main {| changed_only := true; output_json := json; all_files := all |} env
  = main (only_changed json) env.
Proof.
  unfold main, only_changed. simpl.
  destruct (is_empty (get_changed_files env)); [reflexivity |].
  unfold report. now destruct (scan_files env (get_changed_files env)).
Qed.

Lemma records_same_files (env env' : Env) (files : list string) :
  (forall f, read_text env f = read_text env' f) ->
  records env files = records env' files.
Proof.
  intros H. unfold records. apply flat_map_eq_in. intros f _.
  unfold extract_endpoints_from_file. now rewrite H.
Qed.

(** X16.  With [--all-files] the version-control system and the event
    variables play no part: two environments with the same files under the
    working directory and the same contents give the same output and the
    same exit status. *)
Theorem all_files_ignores_version_control (env env' : Env) (json : bool) :
  (forall pattern, rglob env pattern = rglob env' pattern) ->
  (forall f, read_text env f = read_text env' f) ->
  main (every_file json) env = main (every_file json) env'.
Proof.
  intros Hglob Hread. rewrite !main_unfold. simpl.
  assert (Hfiles : files_to_check (every_file json) env
                   = files_to_check (every_file json) env').
  { unfold files_to_check. simpl. now rewrite !Hglob. }
  rewrite Hfiles, !scan_files_records.
  now rewrite (records_same_files env env' _ Hread).
Qed.

Lemma all_files_ignores_version_control_witness :
  main (every_file true) (world "" [("app.py", flask_two_routes)])
  = main (every_file true)
         (world ("app.py" ++ nl ++ "README.md") [("app.py", flask_two_routes)]).
Proof.
  apply (@all_files_ignores_version_control
           (world "" [("app.py", flask_two_routes)])
           (world ("app.py" ++ nl ++ "README.md") [("app.py", flask_two_routes)])
           true).
  - intros pattern. reflexivity.
  - intros f. reflexivity.
Defined.

(** X17.  The text report names every violation: for each one it prints a
    line with the file and a line with the endpoint, and it lists every
    allowed parent path. *)
Theorem text_report_names_every_violation
    (args : Args) (env : Env) (v : endpoint_info) :
  output_json args = false ->
  In v (snd (scan_files env (files_to_check args env))) ->
  In (Line ("  File: " ++ file v)) (fst (main args env))
  /\ In (Line ("  Endpoint: " ++ endpoint v)) (fst (main args env))
  /\ forall path, In path ALLOWED_PARENT_PATHS ->
                  In (Line ("  ✓ " ++ path)) (fst (main args env)).
Proof.
  intros Hj Hv. rewrite main_unfold.
  destruct (changed_only args && is_empty (get_changed_files env)) eqn:E.
  - exfalso. apply andb_true_iff in E as [Hc He].
    unfold files_to_check in Hv. rewrite Hc in Hv.
    destruct (get_changed_files env); [exact Hv | discriminate He].
  - unfold report.
    destruct (scan_files env (files_to_check args env)) as [a vs].
    cbv beta iota zeta delta [fst snd] in Hv |- *. rewrite Hj.
    destruct vs as [|v0 vs]; [destruct Hv |].
    cbv beta iota delta [is_empty].
    assert (Hblock : In (Line ("  File: " ++ file v))
                       (flat_map (fun w => [Line ("  File: " ++ file w);
                                            Line ("  Endpoint: " ++ endpoint w);
                                            Line ""]) (v0 :: vs))
                     /\ In (Line ("  Endpoint: " ++ endpoint v))
                          (flat_map (fun w => [Line ("  File: " ++ file w);
                                               Line ("  Endpoint: " ++ endpoint w);
                                               Line ""]) (v0 :: vs))).
    { split; apply in_flat_map; exists v; (split; [exact Hv |]).
      - now left.
      - right. now left. }
    destruct Hblock as [H1 H2].
    split; [| split].
    + apply in_or_app. right. apply in_or_app. right.
      apply in_or_app. left. exact H1.
    + apply in_or_app. right. apply in_or_app. right.
      apply in_or_app. left. exact H2.
    + intros path Hp. apply in_or_app. right. apply in_or_app. right.
      apply in_or_app. right. apply in_or_app. right.
      now apply (in_map (fun p => Line ("  ✓ " ++ p))).
Qed.

Lemma text_report_names_every_violation_witness :
  let env := world "app.py" [("app.py", flask_two_routes)] in
  let v := {| file := "app.py"; endpoint := "/api/v4/health/status" |} in
  output_json (no_flags false) = false
  /\ In v (snd (scan_files env (files_to_check (no_flags false) env)))
  /\ In (Line "  File: app.py") (fst (main (no_flags false) env))
  /\ In (Line "  Endpoint: /api/v4/health/status") (fst (main (no_flags false) env)).
Proof.
  assert (Hv : In {| file := "app.py"; endpoint := "/api/v4/health/status" |}
                  (snd (scan_files (world "app.py" [("app.py", flask_two_routes)])
                          (files_to_check (no_flags false)
                             (world "app.py" [("app.py", flask_two_routes)])))))
    by (vm_compute; left; reflexivity).
  split; [reflexivity |]. split; [exact Hv |].
  destruct (@text_report_names_every_violation
              (no_flags false) (world "app.py" [("app.py", flask_two_routes)])
              _ eq_refl Hv) as [H1 [H2 _]].
  split; [exact H1 | exact H2].
Defined.

Lemma append_inv_head (a b c : string) : a ++ b = a ++ c -> b = c.
Proof.
  induction a as [|x a IH]; simpl; intros H; [exact H |].
  inversion H. now apply IH.
Qed.

(** X18.  An entry does not cover its look-alikes: an endpoint that continues
    the stripped entry with a character other than a slash is not valid for
    that entry alone, as [/api/v10/users] is not for [/api/v1]. *)
Theorem entry_does_not_cover_longer_names (p : string) (c : ascii) (t : string) :
  c <> "/"%char ->
  validate_endpoint [p] (Str.rstrip "/" p ++ String c t) = false.
Proof.
  intros Hc. unfold validate_endpoint. rewrite validate_loop_existsb. simpl.
  rewrite orb_false_r, rstrip_slash_app, rstrip_slash_cons.
  assert (Hr : exists r,
             match Str.rstrip "/" t with
             | EmptyString =>
                 if (c =? "/")%char then EmptyString else String c EmptyString
             | String a s => String c (String a s)
             end = String c r).
  { destruct (Str.rstrip "/" t) as [|a s]; [| now exists (String a s)].
    apply Ascii.eqb_neq in Hc. rewrite Hc. now exists "". }
  destruct Hr as [r ->].
  apply orb_false_iff. split.
  - destruct (Str.startswith _ _) eqn:E; [exfalso | reflexivity].
    apply startswith_iff in E as [u Hu]. rewrite append_assoc in Hu.
    apply append_inv_head in Hu. simpl in Hu. inversion Hu. now destruct Hc.
  - apply String.eqb_neq. intros H.
    rewrite <- (append_nil_r (Str.rstrip "/" p)) in H at 2.
    apply append_inv_head in H. discriminate H.
Qed.

Lemma entry_does_not_cover_longer_names_witness :
  "0"%char <> "/"%char
  /\ validate_endpoint ["/api/v1/"] "/api/v10/users" = false.
Proof.
  assert (Hc : "0"%char <> "/"%char) by discriminate.
  split; [exact Hc |].
  exact (@entry_does_not_cover_longer_names "/api/v1/" "0" "/users" Hc).
Defined.

(** X19.  The JSON report carries every violation: each one is an object
    with its file and its endpoint in the [violations] array, and the report
    counts the files resolved and the endpoints collected. *)
Theorem json_report_lists_every_violation
    (args : Args) (env : Env) (v : endpoint_info) :
  output_json args = true ->
  In v (snd (scan_files env (files_to_check args env))) ->
  exists doc items,
    fst (main args env) = [Dumps (Some 2) (JDict doc)]
    /\ lookup "violations" doc = Some (JList items)
    /\ In (JDict [("file", JStr (file v)); ("endpoint", JStr (endpoint v))]) items
    /\ lookup "files_checked" doc
       = Some (JNum (List.length (files_to_check args env)))
    /\ lookup "total_endpoints" doc
       = Some (JNum (List.length (fst (scan_files env (files_to_check args env))))).
Proof.
  intros Hj Hv. rewrite main_unfold.
  destruct (changed_only args && is_empty (get_changed_files env)) eqn:E.
  - exfalso. apply andb_true_iff in E as [Hc He].
    unfold files_to_check in Hv. rewrite Hc in Hv.
    destruct (get_changed_files env); [exact Hv | discriminate He].
  - unfold report.
    destruct (scan_files env (files_to_check args env)) as [a vs].
    cbv beta iota zeta delta [fst snd] in Hv |- *. rewrite Hj.
    eexists. exists (map info_json vs).
    split; [reflexivity |]. split; [reflexivity |].
    split; [| split; reflexivity].
    exact (in_map info_json vs v Hv).
Qed.

Lemma json_report_lists_every_violation_witness :
  let env := world "app.py" [("app.py", flask_two_routes)] in
  let v := {| file := "app.py"; endpoint := "/api/v4/health/status" |} in
  output_json (only_changed true) = true
  /\ In v (snd (scan_files env (files_to_check (only_changed true) env)))
  /\ exists doc items,
       fst (main (only_changed true) env) = [Dumps (Some 2) (JDict doc)]
       /\ lookup "violations" doc = Some (JList items)
       /\ In (JDict [("file", JStr "app.py");
                     ("endpoint", JStr "/api/v4/health/status")]) items.
Proof.
  assert (Hv : In {| file := "app.py"; endpoint := "/api/v4/health/status" |}
                  (snd (scan_files (world "app.py" [("app.py", flask_two_routes)])
                          (files_to_check (only_changed true)
                             (world "app.py" [("app.py", flask_two_routes)])))))
    by (vm_compute; left; reflexivity).
  split; [reflexivity |]. split; [exact Hv |].
  destruct (@json_report_lists_every_violation
              (only_changed true) (world "app.py" [("app.py", flask_two_routes)])
              _ eq_refl Hv) as [doc [items [H1 [H2 [H3 _]]]]].
  exists doc, items. split; [exact H1 |]. split; [exact H2 | exact H3].
Defined.
